(** * Delve plugin host-communication contract

    A shallow embedding of the two halves of the contract:

    - the JSON-over-TCP plugin server ([PluginServer], Go, shipped next to
      the GitHub dashboard component): line transport, method dispatcher,
      accept loop and shutdown;
    - the client-side resource managers ([DelvePluginSDK] of the frontend
      SDK and [ResourceManager] of the GitHub dashboard component).

    Go's [encoding/json] is not part of the repository: the server is
    modelled over a codec interface ([Json.Codec]) and a reference instance
    of it ([Json.go]) is used wherever a concrete run is evaluated. *)

From Stdlib Require Import String Ascii List Bool Arith NArith ZArith Lia.
From Stdlib Require Import DecimalString DecimalPos.
Import ListNotations.
Local Open Scope string_scope.
Local Open Scope list_scope.

(* ===================================================================== *)
(** * JSON values and Go maps                                             *)
(* ===================================================================== *)

Module Json.

(** A JSON text as a tree.  A number keeps its literal; an object keeps its
    members in the order of the text, repeated keys included.  The same
    type holds what [json.Unmarshal] stores in an [interface{}] (nil, bool,
    number, string, slice, [map[string]interface{}]): there every object is
    a [gomap], see [to_interface]. *)
#[warnings="-register-all"]
Inductive json : Type :=
| JNull
| JBool (b : bool)
| JNum (literal : string)
| JStr (s : string)
| JArr (items : list json)
| JObj (members : list (string * json)).

(** [map[string]interface{}]: an association list kept sorted by key, each
    key at most once.  The nil map and the empty map are both [[]]; the
    server never tells them apart (a lookup misses on both, [len] is 0 on
    both, [omitempty] drops both). *)
Definition gomap : Type := list (string * json).

(** [m[k]] with the comma-ok form: [None] when the key is absent. *)
Fixpoint lookup (k : string) (m : gomap) : option json :=
  match m with
  | [] => None
  | (k', v) :: m' => if String.eqb k k' then Some v else lookup k m'
  end.

(** [m[k] = v]. *)
Fixpoint insert (k : string) (v : json) (m : gomap) : gomap :=
  match m with
  | [] => [(k, v)]
  | (k', v') :: m' =>
      match String.compare k k' with
      | Lt => (k, v) :: (k', v') :: m'
      | Eq => (k, v) :: m'
      | Gt => (k', v') :: insert k v m'
      end
  end.

(** A composite literal [map[string]interface{}{k1: v1, ...}]. *)
Definition literal (kvs : list (string * json)) : gomap :=
  fold_left (fun m kv => insert (fst kv) (snd kv) m) kvs [].

(** What an [interface{}] receives from a JSON tree: objects become maps,
    where the last of several equal keys wins. *)
Fixpoint to_interface (t : json) : json :=
  match t with
  | JArr items => JArr (map to_interface items)
  | JObj members =>
      JObj (fold_left
              (fun m kv => match kv with (k, v) => insert k (to_interface v) m end)
              members [])
  | _ => t
  end.

(** The interface the server needs from [encoding/json]. *)
Record Codec : Type := {
  (** the text [json.Marshal] gives for an [interface{}] value *)
  Marshal : json -> string;
  (** the scanner of [json.Unmarshal]: the tree of a well-formed text, or
      the text of the syntax error *)
  Parse : string -> json + string
}.

(** [json.Unmarshal(b, &v)] for [var v interface{}]. *)
Definition Unmarshal (codec : Codec) (b : string) : json + string :=
  match Parse codec b with
  | inl t => inl (to_interface t)
  | inr e => inr e
  end.

(** One complete JSON value, as the codec sees it. *)
Definition well_formed (codec : Codec) (b : string) : Prop :=
  exists t, Parse codec b = inl t.

(* ------------------------------------------------------------------- *)
(** ** Reference codec: characters                                       *)
(* ------------------------------------------------------------------- *)

Local Open Scope N_scope.
Local Open Scope string_scope.

Definition code (c : ascii) : N := N_of_ascii c.
Definition chr (n : N) : ascii := ascii_of_N n.
Definition ch_is (n : N) (c : ascii) : bool := N.eqb (code c) n.
Definition between (lo hi n : N) : bool := N.leb lo n && N.leb n hi.

Definition dquote : ascii := chr 34.
Definition backslash : ascii := chr 92.

Definition str1 (c : ascii) : string := String c EmptyString.

(** Text written with apostrophes where the wire has double quotes. *)
Fixpoint wire (s : string) : string :=
  match s with
  | EmptyString => EmptyString
  | String c s' => String (if ch_is 39 c then dquote else c) (wire s')
  end.

Definition is_ws (c : ascii) : bool :=
  ch_is 32 c || ch_is 9 c || ch_is 10 c || ch_is 13 c.

Definition is_digit (c : ascii) : bool := between 48 57 (code c).

Definition hex_value (c : ascii) : option N :=
  let n := code c in
  if between 48 57 n then Some (n - 48)
  else if between 97 102 n then Some (n - 87)
  else if between 65 70 n then Some (n - 55)
  else None.

Definition hex_digit (n : N) : ascii :=
  if N.ltb n 10 then chr (48 + n) else chr (87 + n).

(** UTF-8 encoding of a code point. *)
Definition utf8 (cp : N) : string :=
  if N.ltb cp 128 then str1 (chr cp)
  else if N.ltb cp 2048 then
    String (chr (192 + cp / 64)) (str1 (chr (128 + cp mod 64)))
  else if N.ltb cp 65536 then
    String (chr (224 + cp / 4096))
      (String (chr (128 + (cp / 64) mod 64)) (str1 (chr (128 + cp mod 64))))
  else
    String (chr (240 + cp / 262144))
      (String (chr (128 + (cp / 4096) mod 64))
        (String (chr (128 + (cp / 64) mod 64)) (str1 (chr (128 + cp mod 64))))).

Definition replacement : string := utf8 65533.

(* ------------------------------------------------------------------- *)
(** ** Reference codec: decoding                                         *)
(* ------------------------------------------------------------------- *)

Fixpoint skip_ws (s : string) : string :=
  match s with
  | String c s' => if is_ws c then skip_ws s' else s
  | EmptyString => s
  end.

Fixpoint strip_prefix (p s : string) : option string :=
  match p, s with
  | EmptyString, _ => Some s
  | String a p', String b s' => if Ascii.eqb a b then strip_prefix p' s' else None
  | String _ _, EmptyString => None
  end.

(** The digits at the head of [s] and what follows them. *)
Fixpoint span_digits (s : string) : string * string :=
  match s with
  | String c s' =>
      if is_digit c then let (d, r) := span_digits s' in (String c d, r)
      else (EmptyString, s)
  | EmptyString => (EmptyString, s)
  end.

Definition hex4 (s : string) : option (N * string) :=
  match s with
  | String a (String b (String c (String d r))) =>
      match hex_value a, hex_value b, hex_value c, hex_value d with
      | Some x, Some y, Some z, Some w => Some (((x * 16 + y) * 16 + z) * 16 + w, r)
      | _, _, _, _ => None
      end
  | _ => None
  end.

(** An optional character of [set] at the head of [s]. *)
Definition opt_char (set : ascii -> bool) (s : string) : string * string :=
  match s with
  | String c r => if set c then (str1 c, r) else (EmptyString, s)
  | EmptyString => (EmptyString, s)
  end.

(** A number: an optional minus, an integer part without a leading zero
    (or a single zero), an optional fraction, an optional exponent. *)
Definition scan_number (s : string) : option (string * string) :=
  let (sign, s1) := opt_char (ch_is 45) s in
  let (int, s2) := span_digits s1 in
  match int with
  | EmptyString => None
  | String d ds =>
      if ch_is 48 d && negb (String.eqb ds EmptyString) then None else
      let frac :=
        match opt_char (ch_is 46) s2 with
        | (EmptyString, _) => Some (EmptyString, s2)
        | (dot, r) =>
            match span_digits r with
            | (EmptyString, _) => None
            | (f, r') => Some (dot ++ f, r')
            end
        end in
      match frac with
      | None => None
      | Some (f, s3) =>
          match opt_char (fun c => ch_is 101 c || ch_is 69 c) s3 with
          | (EmptyString, _) => Some (sign ++ int ++ f, s3)
          | (e, r) =>
              let (sg, r1) := opt_char (fun c => ch_is 43 c || ch_is 45 c) r in
              match span_digits r1 with
              | (EmptyString, _) => None
              | (ds', r2) => Some (sign ++ int ++ f ++ e ++ sg ++ ds', r2)
              end
          end
      end
  end.

(** The character a one-letter escape stands for. *)
Definition simple_escape (e : ascii) : option ascii :=
  if ch_is 34 e || ch_is 92 e || ch_is 47 e then Some e
  else if ch_is 98 e then Some (chr 8)
  else if ch_is 102 e then Some (chr 12)
  else if ch_is 110 e then Some (chr 10)
  else if ch_is 114 e then Some (chr 13)
  else if ch_is 116 e then Some (chr 9)
  else None.

(** The bytes of a [\u] escape whose four digits gave [cp]: a high
    surrogate takes a following low one with it, a lone surrogate becomes
    U+FFFD. *)
Definition unicode_escape (cp : N) (r : string) : string * string :=
  if between 55296 56319 cp then
    match r with
    | String b (String u r1) =>
        if ch_is 92 b && ch_is 117 u then
          match hex4 r1 with
          | Some (lo, r2) =>
              if between 56320 57343 lo
              then (utf8 (65536 + (cp - 55296) * 1024 + (lo - 56320)), r2)
              else (replacement, r)
          | None => (replacement, r)
          end
        else (replacement, r)
    | _ => (replacement, r)
    end
  else if between 56320 57343 cp then (replacement, r)
  else (utf8 cp, r).

Definition prepend (p : string) (x : option (string * string)) : option (string * string) :=
  match x with
  | Some (s, r) => Some (p ++ s, r)
  | None => None
  end.

(** The text of a string literal, from after its opening quote. *)
Fixpoint scan_string (fuel : nat) (s : string) : option (string * string) :=
  match fuel, s with
  | S f, String c r =>
      if ch_is 34 c then Some (EmptyString, r)
      else if N.ltb (code c) 32 then None
      else if ch_is 92 c then
        match r with
        | String e r1 =>
            if ch_is 117 e then
              match hex4 r1 with
              | Some (cp, r2) =>
                  let (bytes, r3) := unicode_escape cp r2 in
                  prepend bytes (scan_string f r3)
              | None => None
              end
            else
              match simple_escape e with
              | Some x => prepend (str1 x) (scan_string f r1)
              | None => None
              end
        | EmptyString => None
        end
      else prepend (str1 c) (scan_string f r)
  | _, _ => None
  end.

Fixpoint parse_value (fuel : nat) (s : string) : option (json * string) :=
  match fuel with
  | O => None
  | S f =>
      match skip_ws s with
      | EmptyString => None
      | String c r as s0 =>
          if ch_is 123 c then
            match skip_ws r with
            | String c' r' =>
                if ch_is 125 c' then Some (JObj [], r') else parse_members f (String c' r') []
            | EmptyString => None
            end
          else if ch_is 91 c then
            match skip_ws r with
            | String c' r' =>
                if ch_is 93 c' then Some (JArr [], r') else parse_elems f (String c' r') []
            | EmptyString => None
            end
          else if ch_is 34 c then
            match scan_string (String.length r) r with
            | Some (x, r') => Some (JStr x, r')
            | None => None
            end
          else
            match strip_prefix "true" s0, strip_prefix "false" s0, strip_prefix "null" s0 with
            | Some r', _, _ => Some (JBool true, r')
            | _, Some r', _ => Some (JBool false, r')
            | _, _, Some r' => Some (JNull, r')
            | None, None, None =>
                match scan_number s0 with
                | Some (n, r') => Some (JNum n, r')
                | None => None
                end
            end
      end
  end

with parse_elems (fuel : nat) (s : string) (acc : list json) : option (json * string) :=
  match fuel with
  | O => None
  | S f =>
      match parse_value f s with
      | Some (v, r) =>
          match skip_ws r with
          | String c r' =>
              if ch_is 44 c then parse_elems f r' (v :: acc)
              else if ch_is 93 c then Some (JArr (rev (v :: acc)), r')
              else None
          | EmptyString => None
          end
      | None => None
      end
  end

with parse_members (fuel : nat) (s : string) (acc : list (string * json))
  : option (json * string) :=
  match fuel with
  | O => None
  | S f =>
      match skip_ws s with
      | String q r =>
          if ch_is 34 q then
            match scan_string (String.length r) r with
            | Some (k, r1) =>
                match skip_ws r1 with
                | String c r2 =>
                    if ch_is 58 c then
                      match parse_value f r2 with
                      | Some (v, r3) =>
                          match skip_ws r3 with
                          | String c' r4 =>
                              if ch_is 44 c' then parse_members f r4 ((k, v) :: acc)
                              else if ch_is 125 c' then Some (JObj (rev ((k, v) :: acc)), r4)
                              else None
                          | EmptyString => None
                          end
                      | None => None
                      end
                    else None
                | EmptyString => None
                end
            | None => None
            end
          else None
      | EmptyString => None
      end
  end.

(** One JSON value with nothing but white space around it. *)
Definition parse (b : string) : json + string :=
  match parse_value (2 * String.length b + 2)%nat b with
  | Some (t, r) =>
      match skip_ws r with
      | EmptyString => inl t
      | String _ _ => inr "invalid character after top-level value"
      end
  | None =>
      match skip_ws b with
      | EmptyString => inr "unexpected end of JSON input"
      | String _ _ => inr "invalid JSON syntax"
      end
  end.

(* ------------------------------------------------------------------- *)
(** ** Reference codec: encoding                                         *)
(* ------------------------------------------------------------------- *)

Definition u00 (n : N) : string :=
  String backslash ("u00" ++ String (hex_digit (n / 16)) (str1 (hex_digit (n mod 16)))).

(** One byte of a string inside its quotes: quote and backslash take a
    backslash, control characters their letter or [\u00xx], and the
    characters [<], [>], [&] are written [\u00xx] too (HTML escaping is on
    by default). *)
Definition escape_char (c : ascii) : string :=
  let n := code c in
  if ch_is 34 c || ch_is 92 c then String backslash (str1 c)
  else if ch_is 8 c then String backslash "b"
  else if ch_is 12 c then String backslash "f"
  else if ch_is 10 c then String backslash "n"
  else if ch_is 13 c then String backslash "r"
  else if ch_is 9 c then String backslash "t"
  else if N.ltb n 32 || ch_is 60 c || ch_is 62 c || ch_is 38 c then u00 n
  else str1 c.

Fixpoint escape (s : string) : string :=
  match s with
  | EmptyString => EmptyString
  | String c r => escape_char c ++ escape r
  end.

Definition quote (s : string) : string :=
  String dquote (escape s ++ str1 dquote).

Fixpoint join (sep : string) (l : list string) : string :=
  match l with
  | [] => EmptyString
  | [x] => x
  | x :: l' => x ++ sep ++ join sep l'
  end.

(** The text of a value; a map is written in the order of its keys, which
    is the order a [gomap] is kept in. *)
Fixpoint emit (v : json) : string :=
  match v with
  | JNull => "null"
  | JBool b => if b then "true" else "false"
  | JNum n => n
  | JStr x => quote x
  | JArr items => "[" ++ join "," (map emit items) ++ "]"
  | JObj members =>
      "{" ++ join "," (map (fun kv => match kv with
                                     | (k, x) => quote k ++ ":" ++ emit x
                                     end) members) ++ "}"
  end.

(** The reference codec.  Left out: numbers are not re-formatted (Go goes
    through [float64]), and bytes above 127 pass as they are (Go replaces
    invalid UTF-8 and escapes U+2028 and U+2029). *)
Definition go : Codec := {| Marshal := emit; Parse := parse |}.

End Json.

(* ===================================================================== *)
(** * The plugin server                                                   *)
(* ===================================================================== *)

Module PluginServer.
Import Json.
Local Open Scope string_scope.

(** A Go [error]: [None] is nil, [Some text] an error whose [Error()] is
    [text]. *)
Definition error : Type := option string.

(** [type Request struct]: method, action and data as the tags name them. *)
Record Request : Type := {
  Method : string;
  Action : string;
  Data : gomap
}.

(** [type Response struct]; [Result] and [Error] are [omitempty]. *)
Record Response : Type := {
  Success : bool;
  Result : gomap;
  Error : string
}.

(** [type PluginAPI interface] over a plugin whose state is a [P]; every
    method may change that state.  [Start] receives the server's context,
    here whether it is cancelled at the call.  The maps a plugin returns
    hold JSON values, which [encoding/json] can always encode. *)
Record PluginAPI (P : Type) : Type := {
  Initialize : gomap -> P -> error * P;
  Start : bool -> P -> error * P;
  Stop : P -> error * P;
  GetInfo : P -> gomap * P;
  HandleRequest : string -> string -> string -> P -> (string * error) * P;
  HealthCheck : string -> P -> error * P
}.
Arguments Initialize {P}.
Arguments Start {P}.
Arguments Stop {P}.
Arguments GetInfo {P}.
Arguments HandleRequest {P}.
Arguments HealthCheck {P}.

(** A listening socket: the connections waiting to be accepted, or closed.
    A connection is the lines its peer sends. *)
Definition Conn : Type := list string.

Inductive Listener : Type :=
| Listening (backlog : list Conn)
| ListenerClosed.

(** [type PluginServer struct], as [NewPluginServer] builds it: a plugin, a
    context that is not cancelled with its cancel function, no listener. *)
Record Server (P : Type) : Type := {
  plugin : P;
  listener : option Listener;
  ctx_done : bool
}.
Arguments plugin {P}.
Arguments listener {P}.
Arguments ctx_done {P}.

Definition NewPluginServer {P : Type} (p : P) : Server P :=
  {| plugin := p; listener := None; ctx_done := false |}.

(** The calls that reach the Plugin Implementation, with their arguments. *)
Inductive Call : Type :=
| CallInitialize (config : gomap)
| CallStart (ctx_cancelled : bool)
| CallStop
| CallGetInfo
| CallHandleRequest (method path body : string)
| CallHealthCheck (checkName : string).

(* ------------------------------------------------------------------- *)
(** ** Struct codec of [Request] and [Response]                          *)
(* ------------------------------------------------------------------- *)

Definition zeroRequest : Request :=
  {| Method := EmptyString; Action := EmptyString; Data := [] |}.

Definition to_lower (c : ascii) : ascii :=
  if between 65 90 (code c) then chr (code c + 32)%N else c.

Fixpoint fold_name (s : string) : string :=
  match s with
  | EmptyString => EmptyString
  | String c r => String (to_lower c) (fold_name r)
  end.

Inductive Field : Type := FMethod | FAction | FData.

Definition field_name (f : Field) : string :=
  match f with FMethod => "method" | FAction => "action" | FData => "data" end.

(** The field a key of the text goes to: the one tagged with that name, or
    else the one whose tag equals it when case is ignored; no other key is
    stored. *)
Definition find_field (key : string) : option Field :=
  let pick (k : string) :=
    if String.eqb k "method" then Some FMethod
    else if String.eqb k "action" then Some FAction
    else if String.eqb k "data" then Some FData
    else None in
  match pick key with
  | Some f => Some f
  | None => pick (fold_name key)
  end.

Definition kind (t : json) : string :=
  match t with
  | JNull => "null"
  | JBool _ => "bool"
  | JNum _ => "number"
  | JStr _ => "string"
  | JArr _ => "array"
  | JObj _ => "object"
  end.

Definition type_error (t : json) (f : Field) : string :=
  "json: cannot unmarshal " ++ kind t ++ " into Go struct field Request."
    ++ field_name f ++ " of type "
    ++ match f with FData => "map[string]interface {}" | _ => "string" end.

(** A value stored in a field: a string field takes a string and ignores
    null, the map field takes the members of an object into the map it
    has and is reset by null; anything else is a type error and leaves the
    field. *)
Definition store (f : Field) (t : json) (req : Request) : Request * error :=
  let mismatch := (req, Some (type_error t f)) in
  match f, t with
  | FMethod, JStr x =>
      ({| Method := x; Action := Action req; Data := Data req |}, None)
  | FAction, JStr x =>
      ({| Method := Method req; Action := x; Data := Data req |}, None)
  | FMethod, JNull | FAction, JNull => (req, None)
  | FData, JObj members =>
      ({| Method := Method req; Action := Action req;
          Data := fold_left
                    (fun m kv => insert (fst kv) (to_interface (snd kv)) m)
                    members (Data req) |}, None)
  | FData, JNull =>
      ({| Method := Method req; Action := Action req; Data := [] |}, None)
  | _, _ => mismatch
  end.

(** The members of the top-level object in their order; the first type
    error is kept and decoding goes on. *)
Fixpoint store_members (members : list (string * json)) (req : Request) (saved : error)
  : Request * error :=
  match members with
  | [] => (req, saved)
  | (key, t) :: rest =>
      match find_field key with
      | Some f =>
          let (req', err) := store f t req in
          store_members rest req' (match saved with Some _ => saved | None => err end)
      | None => store_members rest req saved
      end
  end.

(** [json.Unmarshal([]byte(line), &req)] for [var req Request]. *)
Definition UnmarshalRequest (codec : Codec) (line : string) : Request + string :=
  match Parse codec line with
  | inr e => inr e
  | inl JNull => inl zeroRequest
  | inl (JObj members) =>
      match store_members members zeroRequest None with
      | (req, None) => inl req
      | (_, Some e) => inr e
      end
  | inl t =>
      inr ("json: cannot unmarshal " ++ kind t ++ " into Go value of type main.Request")
  end.

Definition newline : string := String (chr 10) EmptyString.


(* ------------------------------------------------------------------- *)
(** ** Dispatcher                                                        *)
(* ------------------------------------------------------------------- *)

(** A method of the server: it reads and updates the server and leaves the
    list of the calls it made on the Plugin Implementation. *)
Definition M (P A : Type) : Type := Server P -> A * Server P * list Call.

Definition ret {P A : Type} (a : A) : M P A := fun s => (a, s, []).

Definition bind {P A B : Type} (m : M P A) (k : A -> M P B) : M P B :=
  fun s =>
    match m s with
    | (a, s1, calls1) =>
        match k a s1 with
        | (b, s2, calls2) => (b, s2, (calls1 ++ calls2)%list)
        end
    end.

Notation "x <- m ;; k" := (bind m (fun x => k))
  (at level 61, m at next level, right associativity).

(** [s.plugin.f(...)]: run a method of the plugin on its state and record
    the call. *)
Definition invoke {P A : Type} (c : Call) (f : P -> A * P) : M P A :=
  fun s =>
    let (a, p') := f (plugin s) in
    (a, {| plugin := p'; listener := listener s; ctx_done := ctx_done s |}, [c]).

(** [s.ctx] *)
Definition ctx {P : Type} : M P bool := fun s => (ctx_done s, s, []).

Definition failure (text : string) : Response :=
  {| Success := false; Result := []; Error := text |}.

Definition success (result : gomap) : Response :=
  {| Success := true; Result := result; Error := EmptyString |}.

(** What a method returned, the server it left, the calls it made. *)
Definition value {P A : Type} (r : A * Server P * list Call) : A := fst (fst r).
Definition after {P A : Type} (r : A * Server P * list Call) : Server P := snd (fst r).
Definition calls {P A : Type} (r : A * Server P * list Call) : list Call := snd r.

(** [v, _ := m[k].(string)]: the string under the key, or the empty
    string when the key is absent or holds something else. *)
Definition string_at (k : string) (m : gomap) : string :=
  match lookup k m with
  | Some (JStr x) => x
  | _ => EmptyString
  end.

(** [v, _ := m[k]]: the value under the key, nil when it is absent. *)
Definition value_at (k : string) (m : gomap) : json :=
  match lookup k m with
  | Some v => v
  | None => JNull
  end.

Section Dispatcher.

Context {P : Type} (api : PluginAPI P) (codec : Codec).

Definition handleHealthCheck (req : Request) : M P Response :=
  let checkName := string_at "check_name" (Data req) in
  err <- invoke (CallHealthCheck checkName) (HealthCheck api checkName) ;;
  match err with
  | Some text =>
      ret (success (literal [("healthy", JBool false); ("message", JStr text)]))
  | None =>
      ret (success (literal [("healthy", JBool true); ("message", JStr "OK")]))
  end.

Definition handleExecuteAction (req : Request) : M P Response :=
  let data := value_at "data" (Data req) in
  let dataBytes := Marshal codec data in
  r <- invoke (CallHandleRequest "POST" "/execute" dataBytes)
         (HandleRequest api "POST" "/execute" dataBytes) ;;
  match r with
  | (_, Some text) => ret (failure text)
  | (result, None) =>
      let resultData :=
        match Unmarshal codec result with
        | inl v => v
        | inr _ => JNull
        end in
      ret (success (literal [("result", resultData)]))
  end.

Definition handleGetInfo (req : Request) : M P Response :=
  info <- invoke CallGetInfo (GetInfo api) ;;
  ret (success info).

Definition handleInitialize (req : Request) : M P Response :=
  match lookup "config" (Data req) with
  | Some (JObj config) =>
      err <- invoke (CallInitialize config) (Initialize api config) ;;
      match err with
      | Some text => ret (failure text)
      | None => ret (success [])
      end
  | _ => ret (failure "config is required")
  end.

Definition handleStart (req : Request) : M P Response :=
  c <- ctx ;;
  err <- invoke (CallStart c) (Start api c) ;;
  match err with
  | Some text => ret (failure text)
  | None => ret (success [])
  end.

Definition handleStop (req : Request) : M P Response :=
  err <- invoke CallStop (Stop api) ;;
  match err with
  | Some text => ret (failure text)
  | None => ret (success [])
  end.

Definition handleRequest (req : Request) : M P Response :=
  if String.eqb (Method req) "health_check" then handleHealthCheck req
  else if String.eqb (Method req) "execute_action" then handleExecuteAction req
  else if String.eqb (Method req) "get_info" then handleGetInfo req
  else if String.eqb (Method req) "initialize" then handleInitialize req
  else if String.eqb (Method req) "start" then handleStart req
  else if String.eqb (Method req) "stop" then handleStop req
  else ret (failure ("unknown method: " ++ Method req)).

(* ------------------------------------------------------------------- *)
(** ** Line transport                                                    *)
(* ------------------------------------------------------------------- *)

Definition nonempty (line : string) : bool := negb (String.eqb line EmptyString).

(** One turn of the loop of [handleConnection] on the line the scanner
    returned: the responses it encodes, none for an empty line. *)
Definition handleLine (line : string) : M P (list Response) :=
  if String.eqb line EmptyString then ret []
  else
    match UnmarshalRequest codec line with
    | inr err => ret [failure ("invalid request format: " ++ err)]
    | inl req =>
        response <- handleRequest req ;;
        ret [response]
    end.

(** [handleConnection] on the lines [scanner.Scan] yields, in their order,
    until it yields no more (the peer closed, or sent a line longer than
    the scanner's buffer): the responses given to [encoder.Encode], in the
    order they are written.  The connection is closed when the loop ends
    and not before. *)
Fixpoint handleConnection (lines : Conn) : M P (list Response) :=
  match lines with
  | [] => ret []
  | line :: rest =>
      out <- handleLine line ;;
      outs <- handleConnection rest ;;
      ret (out ++ outs)%list
  end.


End Dispatcher.

(* ------------------------------------------------------------------- *)
(** ** Accept loop and shutdown                                          *)
(* ------------------------------------------------------------------- *)

(** Where the goroutine that runs [Serve] stands: before [net.Listen], at
    the [select] that heads the loop, inside [s.listener.Accept()], or
    returned with its error. *)
Inductive Pc : Type :=
| PcListen (port : N)
| PcSelect
| PcAccept
| PcReturned (err : error).

(** What [Serve] prints. *)
Inductive Printed : Type :=
| PrintedListening (port : N)
| PrintedAcceptError (err : string).

(** The server while [Serve] runs: the connections handed to a goroutine
    of their own ([go s.handleConnection(conn)]) and the standard output. *)
Record Serving (P : Type) : Type := {
  server : Server P;
  pc : Pc;
  spawned : list Conn;
  stdout : list Printed
}.
Arguments server {P}.
Arguments pc {P}.
Arguments spawned {P}.
Arguments stdout {P}.

(** [listener.Accept()]: the next waiting connection, an error once the
    listener is closed, and no return at all while nothing waits. *)
Inductive AcceptResult : Type :=
| Accepted (conn : Conn) (rest : Listener)
| AcceptFailed (err : string)
| AcceptBlocked.

Definition Accept (l : Listener) : AcceptResult :=
  match l with
  | ListenerClosed => AcceptFailed "use of closed network connection"
  | Listening [] => AcceptBlocked
  | Listening (conn :: backlog) => Accepted conn (Listening backlog)
  end.

(** [%d] *)
Definition decimal (n : N) : string :=
  NilZero.string_of_uint (N.to_uint n).

Definition with_listener {P : Type} (s : Server P) (l : option Listener) : Server P :=
  {| plugin := plugin s; listener := l; ctx_done := ctx_done s |}.

(** [s.cancel()] *)
Definition cancel {P : Type} (s : Server P) : Server P :=
  {| plugin := plugin s; listener := listener s; ctx_done := true |}.

(** [if s.listener != nil { s.listener.Close() }] *)
Definition close_listener {P : Type} (s : Server P) : Server P :=
  match listener s with
  | Some _ => with_listener s (Some ListenerClosed)
  | None => s
  end.

(** [Shutdown]: cancel the context, then close the listener. *)
Definition Shutdown {P : Type} (s : Server P) : Server P :=
  close_listener (cancel s).

Section Serve.

Context {P : Type}.

(** [net.Listen] on a port: [None] when it binds, else the error text. *)
Variable listen_error : N -> error.

Definition at_pc (st : Serving P) (s : Server P) (next : Pc) : Serving P :=
  {| server := s; pc := next; spawned := spawned st; stdout := stdout st |}.

(** One step of [Serve]; [None] when it cannot move: blocked inside
    [Accept], or returned. *)
Definition Serve_step (st : Serving P) : option (Serving P) :=
  let s := server st in
  match pc st with
  | PcListen port =>
      match listen_error port with
      | Some err =>
          Some (at_pc st s (PcReturned
                  (Some ("failed to listen on port " ++ decimal port ++ ": " ++ err))))
      | None =>
           Some {| server := with_listener s (Some (Listening []));
                   pc := PcSelect;
                   spawned := spawned st;
                   stdout := (stdout st ++ [PrintedListening port])%list |}
      end
  | PcSelect =>
      if ctx_done s then Some (at_pc st s (PcReturned None))
      else Some (at_pc st s PcAccept)
  | PcAccept =>
      match listener s with
      | None => None
      | Some l =>
          match Accept l with
          | Accepted conn l' =>
              Some {| server := with_listener s (Some l');
                      pc := PcSelect;
                      spawned := (spawned st ++ [conn])%list;
                      stdout := stdout st |}
          | AcceptFailed err =>
              if ctx_done s then Some (at_pc st s (PcReturned None))
              else Some {| server := s;
                           pc := PcSelect;
                           spawned := spawned st;
                           stdout := (stdout st ++ [PrintedAcceptError err])%list |}
          | AcceptBlocked => None
          end
      end
  | PcReturned _ => None
  end.

(** [Serve] run for at most [fuel] steps. *)
Fixpoint Serve_run (fuel : nat) (st : Serving P) : Serving P :=
  match fuel with
  | O => st
  | S fuel' =>
      match Serve_step st with
      | Some st' => Serve_run fuel' st'
      | None => st
      end
  end.

(** What happens around the loop: a peer connects, or another goroutine
    runs [Shutdown], or only one of its two statements. *)
Definition on_server (f : Server P -> Server P) (st : Serving P) : Serving P :=
  at_pc st (f (server st)) (pc st).

(** A peer dials the port: the connection waits in the listener's backlog
    (a closed listener takes none). *)
Definition dial (conn : Conn) (s : Server P) : Server P :=
  match listener s with
  | Some (Listening backlog) => with_listener s (Some (Listening (backlog ++ [conn])%list))
  | _ => s
  end.

(** [server.Serve(port)] called on a new server. *)
Definition Serve (p : P) (port : N) : Serving P :=
  {| server := NewPluginServer p; pc := PcListen port; spawned := []; stdout := [] |}.

End Serve.

End PluginServer.

(* ===================================================================== *)
(** * The browser side: what a resource manager acts on                   *)
(* ===================================================================== *)

Module Browser.

(** Objects of the page are known by an identity. *)
Definition TimerId : Type := nat.
Definition Target : Type := nat.
Definition Socket : Type := nat.
Definition Controller : Type := nat.
Definition Callback : Type := nat.
Definition Options : Type := nat.

(** The functions given to [onCleanup]: a function of the plugin, which may
    throw when called, or the closure [() => controller.abort()] that the
    SDK's [managedFetch] makes.  The body of a function of the plugin is
    outside the model; it does not call back into the manager. *)
Inductive Fn : Type :=
| UserFn (id : nat) (throws : bool)
| AbortFn (controller : Controller).

(** A JavaScript value as [typeof] sees it. *)
Inductive Value : Type :=
| VFunction (f : Fn)
| VOther.

Definition Fn_eqb (f g : Fn) : bool :=
  match f, g with
  | UserFn i t, UserFn j u => Nat.eqb i j && Bool.eqb t u
  | AbortFn c, AbortFn d => Nat.eqb c d
  | _, _ => false
  end.

(** [WebSocket.readyState] *)
Inductive ReadyState : Type := CONNECTING | OPEN | CLOSING | CLOSED.

(** [{ event, handler, options }] *)
Record Binding : Type := {
  event : string;
  handler : Callback;
  options : Options
}.

(** What the page observes. *)
Inductive Effect : Type :=
| SetInterval (callback : Callback) (delay : nat) (id : TimerId)
| SetTimeout (callback : Callback) (delay : nat) (id : TimerId)
| ClearInterval (id : TimerId)
| ClearTimeout (id : TimerId)
| AddEventListener (target : Target) (ev : string) (h : Callback) (o : Options)
| RemoveEventListener (target : Target) (ev : string) (h : Callback) (o : option Options)
| SocketClose (ws : Socket) (code : nat) (reason : string)
| Abort (c : Controller)
| Fetch (url : string) (signal : Controller)
| Called (f : Fn)
| ConsoleLog (text : string)
| ConsoleWarn (text : string) (f : Fn).

(** An effect that releases a resource or runs a cleanup handler. *)
Definition releases (e : Effect) : bool :=
  match e with
  | ClearInterval _ | ClearTimeout _ | RemoveEventListener _ _ _ _
  | SocketClose _ _ _ | Abort _ | Called _ | ConsoleWarn _ _ => true
  | _ => false
  end.

(** How often [f] was called in a run. *)
Definition invocations (f : Fn) (t : list Effect) : nat :=
  length (filter (fun e => match e with Called g => Fn_eqb g f | _ => false end) t).

(** The page: the next timer handle and the next [AbortController], the
    state of each socket, the controllers whose signal is aborted, and the
    sockets that carry the manager's own [close] listener.  The timers
    that run and the listeners that are bound are not part of it: what a
    manager asks of the page about them is read in the trace of effects,
    and nothing is said of what the page makes of a request. *)
Record Page : Type := {
  next_timer : TimerId;
  next_controller : Controller;
  readyState : Socket -> ReadyState;
  aborted : Controller -> bool;
  close_listeners : list Socket
}.

Definition bump_timer (b : Page) : Page :=
  {| next_timer := S (next_timer b); next_controller := next_controller b;
     readyState := readyState b; aborted := aborted b;
     close_listeners := close_listeners b |}.

Definition bump_controller (b : Page) : Page :=
  {| next_timer := next_timer b; next_controller := S (next_controller b);
     readyState := readyState b; aborted := aborted b;
     close_listeners := close_listeners b |}.

Definition set_readyState (ws : Socket) (r : ReadyState) (b : Page) : Page :=
  {| next_timer := next_timer b; next_controller := next_controller b;
     readyState := fun x => if Nat.eqb x ws then r else readyState b x;
     aborted := aborted b;
     close_listeners := close_listeners b |}.

Definition set_aborted (c : Controller) (b : Page) : Page :=
  {| next_timer := next_timer b; next_controller := next_controller b;
     readyState := readyState b;
     aborted := fun x => if Nat.eqb x c then true else aborted b x;
     close_listeners := close_listeners b |}.

Definition listen_close (ws : Socket) (b : Page) : Page :=
  {| next_timer := next_timer b; next_controller := next_controller b;
     readyState := readyState b; aborted := aborted b;
     close_listeners := (close_listeners b ++ [ws])%list |}.

(** ** [Set] and [Map], in insertion order *)

Section JsSet.

Context {A : Type} (eqb : A -> A -> bool).

Definition has (x : A) (l : list A) : bool := existsb (eqb x) l.

(** [set.add(x)] *)
Definition add (x : A) (l : list A) : list A :=
  if has x l then l else (l ++ [x])%list.

(** [set.delete(x)] *)
Definition delete (x : A) (l : list A) : list A :=
  filter (fun y => negb (eqb x y)) l.

End JsSet.

(** [map.get(target)] *)
Fixpoint get {V : Type} (k : Target) (m : list (Target * V)) : option V :=
  match m with
  | [] => None
  | (k', v) :: m' => if Nat.eqb k k' then Some v else get k m'
  end.

(** [map.set(target, v)]: an entry keeps its place, a new one goes last. *)
Fixpoint set {V : Type} (k : Target) (v : V) (m : list (Target * V)) : list (Target * V) :=
  match m with
  | [] => [(k, v)]
  | (k', v') :: m' => if Nat.eqb k k' then (k, v) :: m' else (k', v') :: set k v m'
  end.

(** [map.delete(target)] *)
Definition remove {V : Type} (k : Target) (m : list (Target * V)) : list (Target * V) :=
  filter (fun kv => negb (Nat.eqb k (fst kv))) m.

(** [listeners.findIndex(l => l.event === event && l.handler === handler)]
    followed by [splice(index, 1)] when the index is not -1. *)
Fixpoint splice_first (ev : string) (h : Callback) (ls : list Binding) : list Binding :=
  match ls with
  | [] => []
  | l :: ls' =>
      if String.eqb (event l) ev && Nat.eqb (handler l) h then ls'
      else l :: splice_first ev h ls'
  end.

(** [handler()] inside [try]/[catch]: the call, then what the body does
    to the page as far as the model knows it, then the warning when it
    threw. *)
Definition call_handler (warning : string) (f : Fn) (b : Page) : Page * list Effect :=
  match f with
  | UserFn _ throws =>
      (b, Called f :: (if throws then [ConsoleWarn warning f] else []))
  | AbortFn c => (set_aborted c b, [Called f; Abort c])
  end.

(** [handlers.forEach(handler => { try { handler() } catch ... })] *)
Fixpoint call_handlers (warning : string) (fs : list Fn) (b : Page) : Page * list Effect :=
  match fs with
  | [] => (b, [])
  | f :: fs' =>
      let (b1, t1) := call_handler warning f b in
      let (b2, t2) := call_handlers warning fs' b1 in
      (b2, (t1 ++ t2)%list)
  end.

(** [eventListeners.forEach((listeners, target) => listeners.forEach(...))] *)
Definition remove_all_listeners (m : list (Target * list Binding)) : list Effect :=
  flat_map (fun tl =>
              map (fun l => RemoveEventListener (fst tl) (event l) (handler l)
                              (Some (options l)))
                  (snd tl)) m.

End Browser.

(* ===================================================================== *)
(** * [DelvePluginSDK]: the resource manager of the frontend SDK          *)
(* ===================================================================== *)

Module DelvePluginSDK.
Import Browser.
Local Open Scope string_scope.

Record SDK : Type := {
  cleanupHandlers : list Fn;
  isShuttingDown : bool;
  intervals : list TimerId;
  timeouts : list TimerId;
  eventListeners : list (Target * list Binding);
  websockets : list Socket
}.

(** [constructor()] *)
Definition new : SDK :=
  {| cleanupHandlers := []; isShuttingDown := false; intervals := [];
     timeouts := []; eventListeners := []; websockets := [] |}.

Definition with_cleanupHandlers (v : list Fn) (s : SDK) : SDK :=
  {| cleanupHandlers := v; isShuttingDown := isShuttingDown s;
     intervals := intervals s; timeouts := timeouts s;
     eventListeners := eventListeners s; websockets := websockets s |}.

Definition with_isShuttingDown (v : bool) (s : SDK) : SDK :=
  {| cleanupHandlers := cleanupHandlers s; isShuttingDown := v;
     intervals := intervals s; timeouts := timeouts s;
     eventListeners := eventListeners s; websockets := websockets s |}.

Definition with_intervals (v : list TimerId) (s : SDK) : SDK :=
  {| cleanupHandlers := cleanupHandlers s; isShuttingDown := isShuttingDown s;
     intervals := v; timeouts := timeouts s;
     eventListeners := eventListeners s; websockets := websockets s |}.

Definition with_timeouts (v : list TimerId) (s : SDK) : SDK :=
  {| cleanupHandlers := cleanupHandlers s; isShuttingDown := isShuttingDown s;
     intervals := intervals s; timeouts := v;
     eventListeners := eventListeners s; websockets := websockets s |}.

Definition with_eventListeners (v : list (Target * list Binding)) (s : SDK) : SDK :=
  {| cleanupHandlers := cleanupHandlers s; isShuttingDown := isShuttingDown s;
     intervals := intervals s; timeouts := timeouts s;
     eventListeners := v; websockets := websockets s |}.

Definition with_websockets (v : list Socket) (s : SDK) : SDK :=
  {| cleanupHandlers := cleanupHandlers s; isShuttingDown := isShuttingDown s;
     intervals := intervals s; timeouts := timeouts s;
     eventListeners := eventListeners s; websockets := v |}.

(** The manager and the page it lives in. *)
Definition World : Type := SDK * Page.

(** A method: the world after it and what the page observed. *)
Definition Method : Type := World -> World * list Effect.

Definition onCleanup (v : Value) : Method := fun '(s, b) =>
  match v with
  | VFunction f => ((with_cleanupHandlers (add Fn_eqb f (cleanupHandlers s)) s, b), [])
  | VOther => ((s, b), [])
  end.

Definition setManagedInterval (callback : Callback) (delay : nat) : Method := fun '(s, b) =>
  let intervalId := next_timer b in
  ((with_intervals (add Nat.eqb intervalId (intervals s)) s, bump_timer b),
   [SetInterval callback delay intervalId]).

Definition setManagedTimeout (callback : Callback) (delay : nat) : Method := fun '(s, b) =>
  let timeoutId := next_timer b in
  ((with_timeouts (add Nat.eqb timeoutId (timeouts s)) s, bump_timer b),
   [SetTimeout callback delay timeoutId]).

Definition addManagedEventListener (target : Target) (ev : string) (h : Callback)
    (o : Options) : Method := fun '(s, b) =>
  let listeners :=
    match get target (eventListeners s) with
    | Some ls => ls
    | None => []
    end in
  let binding := {| event := ev; handler := h; options := o |} in
  ((with_eventListeners (set target (listeners ++ [binding])%list (eventListeners s)) s, b),
   [AddEventListener target ev h o]).

Definition addManagedWebSocket (ws : Socket) : Method := fun '(s, b) =>
  ((with_websockets (add Nat.eqb ws (websockets s)) s, listen_close ws b), []).

Definition clearManagedInterval (intervalId : TimerId) : Method := fun '(s, b) =>
  ((with_intervals (delete Nat.eqb intervalId (intervals s)) s, b),
   [ClearInterval intervalId]).

Definition clearManagedTimeout (timeoutId : TimerId) : Method := fun '(s, b) =>
  ((with_timeouts (delete Nat.eqb timeoutId (timeouts s)) s, b),
   [ClearTimeout timeoutId]).

Definition removeManagedEventListener (target : Target) (ev : string) (h : Callback)
  : Method := fun '(s, b) =>
  let s' :=
    match get target (eventListeners s) with
    | Some listeners =>
        match splice_first ev h listeners with
        | [] => with_eventListeners (remove target (eventListeners s)) s
        | ls => with_eventListeners (set target ls (eventListeners s)) s
        end
    | None => s
    end in
  ((s', b), [RemoveEventListener target ev h None]).

(** [websockets.forEach(websocket => { if (OPEN or CONNECTING) close(1000, ...) })] *)
Fixpoint close_sockets (wss : list Socket) (b : Page) : Page * list Effect :=
  match wss with
  | [] => (b, [])
  | ws :: wss' =>
      match readyState b ws with
      | OPEN | CONNECTING =>
          let (b', t) := close_sockets wss' (set_readyState ws CLOSING b) in
          (b', SocketClose ws 1000 "Plugin shutting down" :: t)
      | _ => close_sockets wss' b
      end
  end.

Definition cleanup : Method := fun '(s, b) =>
  if isShuttingDown s then ((s, b), [])
  else
    let s1 := with_isShuttingDown true s in
    let t_intervals := map ClearInterval (intervals s1) in
    let s2 := with_intervals [] s1 in
    let t_timeouts := map ClearTimeout (timeouts s2) in
    let s3 := with_timeouts [] s2 in
    let t_listeners := remove_all_listeners (eventListeners s3) in
    let s4 := with_eventListeners [] s3 in
    let (b1, t_sockets) := close_sockets (websockets s4) b in
    let s5 := with_websockets [] s4 in
    let (b2, t_handlers) :=
      call_handlers "[Delve SDK] Error in cleanup handler:" (cleanupHandlers s5) b1 in
    let s6 := with_cleanupHandlers [] s5 in
    ((s6, b2),
     ([ConsoleLog "[Delve SDK] Starting plugin cleanup"]
        ++ t_intervals ++ t_timeouts ++ t_listeners ++ t_sockets ++ t_handlers
        ++ [ConsoleLog "[Delve SDK] Plugin cleanup completed"])%list).

Definition managedFetch (url : string) : Method := fun '(s, b) =>
  let controller := next_controller b in
  let '(w, t) := onCleanup (VFunction (AbortFn controller)) (s, bump_controller b) in
  (w, (t ++ [Fetch url controller])%list).

(** The [close] event of a socket: its state becomes [CLOSED] and the
    listener that [addManagedWebSocket] left on it, if any, runs. *)
Definition closeEvent (ws : Socket) : Method := fun '(s, b) =>
  let b' := set_readyState ws CLOSED b in
  if has Nat.eqb ws (close_listeners b)
  then ((with_websockets (delete Nat.eqb ws (websockets s)) s, b'), [])
  else ((s, b'), []).

(** What the plugin's frontend and the page can do to a manager. *)
Inductive Op : Type :=
| OnCleanup (v : Value)
| SetManagedInterval (callback : Callback) (delay : nat)
| SetManagedTimeout (callback : Callback) (delay : nat)
| AddManagedEventListener (target : Target) (ev : string) (h : Callback) (o : Options)
| AddManagedWebSocket (ws : Socket)
| ClearManagedInterval (id : TimerId)
| ClearManagedTimeout (id : TimerId)
| RemoveManagedEventListener (target : Target) (ev : string) (h : Callback)
| Cleanup
| ManagedFetch (url : string)
| CloseEvent (ws : Socket).

Definition perform (op : Op) : Method :=
  match op with
  | OnCleanup v => onCleanup v
  | SetManagedInterval c d => setManagedInterval c d
  | SetManagedTimeout c d => setManagedTimeout c d
  | AddManagedEventListener target ev h o => addManagedEventListener target ev h o
  | AddManagedWebSocket ws => addManagedWebSocket ws
  | ClearManagedInterval id => clearManagedInterval id
  | ClearManagedTimeout id => clearManagedTimeout id
  | RemoveManagedEventListener target ev h => removeManagedEventListener target ev h
  | Cleanup => cleanup
  | ManagedFetch url => managedFetch url
  | CloseEvent ws => closeEvent ws
  end.

Fixpoint run (ops : list Op) (w : World) : World * list Effect :=
  match ops with
  | [] => (w, [])
  | op :: ops' =>
      let (w1, t1) := perform op w in
      let (w2, t2) := run ops' w1 in
      (w2, (t1 ++ t2)%list)
  end.

Definition is_cleanup (op : Op) : bool :=
  match op with Cleanup => true | _ => false end.

(** The operations that register a resource. *)
Definition registers (op : Op) : bool :=
  match op with
  | OnCleanup _ | SetManagedInterval _ _ | SetManagedTimeout _ _
  | AddManagedEventListener _ _ _ _ | AddManagedWebSocket _ | ManagedFetch _ => true
  | _ => false
  end.

(** The resource that an effect started is held by the registry it
    belongs to. *)
Definition tracked (s : SDK) (e : Effect) : Prop :=
  match e with
  | SetInterval _ _ id => In id (intervals s)
  | SetTimeout _ _ id => In id (timeouts s)
  | AddEventListener target ev h o =>
      exists ls, get target (eventListeners s) = Some ls
                 /\ In {| event := ev; handler := h; options := o |} ls
  | Fetch _ c => In (AbortFn c) (cleanupHandlers s)
  | _ => True
  end.

(** The function given to [onCleanup] and the socket given to
    [addManagedWebSocket] are in their registry.  Of the other operations
    it says nothing: what they register is a handle or a binding that the
    page made, which [tracked] and [registered] speak of. *)
Definition listed (s : SDK) (op : Op) : Prop :=
  match op with
  | OnCleanup (VFunction f) => In f (cleanupHandlers s)
  | AddManagedWebSocket ws => In ws (websockets s)
  | _ => True
  end.




End DelvePluginSDK.

(* ===================================================================== *)
(** * [ResourceManager]: the manager of the GitHub dashboard component    *)
(* ===================================================================== *)

Module ResourceManager.
Import Browser.
Local Open Scope string_scope.

Record Manager : Type := {
  cleanupHandlers : list Fn;
  isShuttingDown : bool;
  intervals : list TimerId;
  timeouts : list TimerId;
  eventListeners : list (Target * list Binding);
  abortControllers : list Controller
}.

(** [constructor()] *)
Definition new : Manager :=
  {| cleanupHandlers := []; isShuttingDown := false; intervals := [];
     timeouts := []; eventListeners := []; abortControllers := [] |}.

Definition with_cleanupHandlers (v : list Fn) (s : Manager) : Manager :=
  {| cleanupHandlers := v; isShuttingDown := isShuttingDown s;
     intervals := intervals s; timeouts := timeouts s;
     eventListeners := eventListeners s; abortControllers := abortControllers s |}.

Definition with_isShuttingDown (v : bool) (s : Manager) : Manager :=
  {| cleanupHandlers := cleanupHandlers s; isShuttingDown := v;
     intervals := intervals s; timeouts := timeouts s;
     eventListeners := eventListeners s; abortControllers := abortControllers s |}.

Definition with_intervals (v : list TimerId) (s : Manager) : Manager :=
  {| cleanupHandlers := cleanupHandlers s; isShuttingDown := isShuttingDown s;
     intervals := v; timeouts := timeouts s;
     eventListeners := eventListeners s; abortControllers := abortControllers s |}.

Definition with_timeouts (v : list TimerId) (s : Manager) : Manager :=
  {| cleanupHandlers := cleanupHandlers s; isShuttingDown := isShuttingDown s;
     intervals := intervals s; timeouts := v;
     eventListeners := eventListeners s; abortControllers := abortControllers s |}.

Definition with_eventListeners (v : list (Target * list Binding)) (s : Manager) : Manager :=
  {| cleanupHandlers := cleanupHandlers s; isShuttingDown := isShuttingDown s;
     intervals := intervals s; timeouts := timeouts s;
     eventListeners := v; abortControllers := abortControllers s |}.

Definition with_abortControllers (v : list Controller) (s : Manager) : Manager :=
  {| cleanupHandlers := cleanupHandlers s; isShuttingDown := isShuttingDown s;
     intervals := intervals s; timeouts := timeouts s;
     eventListeners := eventListeners s; abortControllers := v |}.

Definition World : Type := Manager * Page.

Definition Method : Type := World -> World * list Effect.

Definition onCleanup (v : Value) : Method := fun '(s, b) =>
  match v with
  | VFunction f => ((with_cleanupHandlers (add Fn_eqb f (cleanupHandlers s)) s, b), [])
  | VOther => ((s, b), [])
  end.

Definition setManagedInterval (h : Callback) (delay : nat) : Method := fun '(s, b) =>
  let id := next_timer b in
  ((with_intervals (add Nat.eqb id (intervals s)) s, bump_timer b),
   [SetInterval h delay id]).

Definition setManagedTimeout (h : Callback) (delay : nat) : Method := fun '(s, b) =>
  let id := next_timer b in
  ((with_timeouts (add Nat.eqb id (timeouts s)) s, bump_timer b),
   [SetTimeout h delay id]).

Definition addManagedEventListener (target : Target) (ev : string) (h : Callback)
    (o : Options) : Method := fun '(s, b) =>
  let listeners :=
    match get target (eventListeners s) with
    | Some ls => ls
    | None => []
    end in
  let binding := {| event := ev; handler := h; options := o |} in
  ((with_eventListeners (set target (listeners ++ [binding])%list (eventListeners s)) s, b),
   [AddEventListener target ev h o]).

Definition managedFetch (url : string) : Method := fun '(s, b) =>
  let controller := next_controller b in
  ((with_abortControllers (add Nat.eqb controller (abortControllers s)) s,
    bump_controller b),
   [Fetch url controller]).

(** The [finally] of a fetch that settled. *)
Definition settled (controller : Controller) : Method := fun '(s, b) =>
  ((with_abortControllers (delete Nat.eqb controller (abortControllers s)) s, b), []).

(** [abortControllers.forEach(c => { if (!c.signal.aborted) c.abort() })] *)
Fixpoint abort_all (cs : list Controller) (b : Page) : Page * list Effect :=
  match cs with
  | [] => (b, [])
  | c :: cs' =>
      if aborted b c then abort_all cs' b
      else
        let (b', t) := abort_all cs' (set_aborted c b) in
        (b', Abort c :: t)
  end.

Definition cleanup : Method := fun '(s, b) =>
  if isShuttingDown s then ((s, b), [])
  else
    let s1 := with_isShuttingDown true s in
    let t_intervals := map ClearInterval (intervals s1) in
    let s2 := with_intervals [] s1 in
    let t_timeouts := map ClearTimeout (timeouts s2) in
    let s3 := with_timeouts [] s2 in
    let t_listeners := remove_all_listeners (eventListeners s3) in
    let s4 := with_eventListeners [] s3 in
    let (b1, t_aborts) := abort_all (abortControllers s4) b in
    let s5 := with_abortControllers [] s4 in
    let (b2, t_handlers) :=
      call_handlers "[GitHub Dashboard] Error in cleanup handler:" (cleanupHandlers s5) b1 in
    let s6 := with_cleanupHandlers [] s5 in
    ((s6, b2),
     ([ConsoleLog "[GitHub Dashboard] Starting cleanup"]
        ++ t_intervals ++ t_timeouts ++ t_listeners ++ t_aborts ++ t_handlers
        ++ [ConsoleLog "[GitHub Dashboard] Cleanup completed"])%list).

Inductive Op : Type :=
| OnCleanup (v : Value)
| SetManagedInterval (h : Callback) (delay : nat)
| SetManagedTimeout (h : Callback) (delay : nat)
| AddManagedEventListener (target : Target) (ev : string) (h : Callback) (o : Options)
| ManagedFetch (url : string)
| Settled (controller : Controller)
| Cleanup.

Definition perform (op : Op) : Method :=
  match op with
  | OnCleanup v => onCleanup v
  | SetManagedInterval h d => setManagedInterval h d
  | SetManagedTimeout h d => setManagedTimeout h d
  | AddManagedEventListener target ev h o => addManagedEventListener target ev h o
  | ManagedFetch url => managedFetch url
  | Settled c => settled c
  | Cleanup => cleanup
  end.

Fixpoint run (ops : list Op) (w : World) : World * list Effect :=
  match ops with
  | [] => (w, [])
  | op :: ops' =>
      let (w1, t1) := perform op w in
      let (w2, t2) := run ops' w1 in
      (w2, (t1 ++ t2)%list)
  end.

Definition is_cleanup (op : Op) : bool :=
  match op with Cleanup => true | _ => false end.

End ResourceManager.

(* ===================================================================== *)
(** * A plugin to run the server against                                  *)
(* ===================================================================== *)

Module Probe.
Import Json PluginServer.
Local Open Scope string_scope.

(** The lifecycle states of the contract. *)
Inductive PluginState : Type := Uninitialized | Initialized | Running | Stopped.

(** A plugin that remembers the last lifecycle call it received and
    answers [HealthCheck] and [HandleRequest] from two tables.  Like the
    dashboard plugin, its [Start] and [Stop] return nil whatever came
    before. *)
Definition scripted (health : string -> error) (execute : string -> string * error)
  : PluginAPI PluginState :=
  {| Initialize := fun _ _ => (None, Initialized);
     Start := fun _ _ => (None, Running);
     Stop := fun _ => (None, Stopped);
     GetInfo := fun st => (literal [("name", JStr "probe")], st);
     HandleRequest := fun _ _ body st => (execute body, st);
     HealthCheck := fun name st => (health name, st) |}.

(** Every check fails with the given text; [HandleRequest] echoes its body. *)
Definition failing (text : string) : PluginAPI PluginState :=
  scripted (fun _ => Some text) (fun body => (body, None)).

(** A server just made for a plugin on which nothing was called yet. *)
Definition fresh : Server PluginState := NewPluginServer Uninitialized.


End Probe.

(* ===================================================================== *)
(** * [RunPluginServer]: the port taken from the command line             *)
(* ===================================================================== *)

Module RunPlugin.
Local Open Scope string_scope.

(** [strings.HasPrefix(s, prefix)] *)
Definition HasPrefix (s prefix : string) : bool := String.prefix prefix s.

(** [s[n:]] for [n] not beyond the length of [s] *)
Fixpoint drop (n : nat) (s : string) : string :=
  match n, s with
  | S n', String _ s' => drop n' s'
  | _, _ => s
  end.

Definition MinInt : Z := (-9223372036854775808)%Z.
Definition MaxInt : Z := 9223372036854775807%Z.

(** [strconv.Atoi] where [int] has 64 bits: an optional sign, then one
    decimal digit or more and nothing else; a value out of range is an
    error too. *)
Definition Atoi (s : string) : option Z :=
  let (negative, digits) :=
    match s with
    | String c r =>
        if Ascii.eqb c "-" then (true, r)
        else if Ascii.eqb c "+" then (false, r)
        else (false, s)
    | EmptyString => (false, s)
    end in
  match NilZero.uint_of_string digits with
  | Some d =>
      let n := if negative then Z.opp (Z.of_uint d) else Z.of_uint d in
      if Z.leb MinInt n && Z.leb n MaxInt then Some n else None
  | None => None
  end.

(** An argument that gives no port: it does not start with [--port=], or
    [Atoi] refuses what follows. *)
Definition no_port (arg : string) : Prop :=
  HasPrefix arg "--port=" = false \/ Atoi (drop 7 arg) = None.

(** One turn of the loop over [os.Args[1:]]. *)
Definition port_step (port : Z) (arg : string) : Z :=
  if HasPrefix arg "--port=" then
    match Atoi (drop 7 arg) with
    | Some p => p
    | None => port
    end
  else port.

(** The port [RunPluginServer] gives to [Serve], from [os.Args[1:]]. *)
Definition RunPluginServer_port (args : list string) : Z :=
  fold_left port_step args 50051%Z.

(** [%d] of an [int] *)
Definition decimalZ (n : Z) : string := NilZero.string_of_int (Z.to_int n).

End RunPlugin.

(* ===================================================================== *)
(** * The dispatcher's table                                              *)
(* ===================================================================== *)

Module Table.
Local Open Scope string_scope.

(** The cases of the [switch] of [handleRequest]. *)
Definition methods : list string :=
  ["health_check"; "execute_action"; "get_info"; "initialize"; "start"; "stop"].

End Table.

(* ===================================================================== *)
(** * What happens around [Serve]                                         *)
(* ===================================================================== *)

Module ServeEvents.
Import PluginServer.

(** The goroutine of [Serve] takes a step (when it can), a peer dials the
    port (the listener's backlog takes every connection while it is open),
    or another goroutine runs a statement of [Shutdown]. *)
Inductive Event : Type :=
| Step
| Dial (conn : Conn)
| Cancel
| Close.

Section Events.

Context {P : Type} (listen_error : N -> error).

Definition occur (e : Event) (st : Serving P) : Serving P :=
  match e with
  | Step =>
      match Serve_step listen_error st with
      | Some st' => st'
      | None => st
      end
  | Dial conn => on_server (dial conn) st
  | Cancel => on_server cancel st
  | Close => on_server close_listener st
  end.

Definition occur_all (es : list Event) (st : Serving P) : Serving P :=
  fold_left (fun st e => occur e st) es st.

End Events.

(** The connections dialled in a run of events. *)
Definition dialled (es : list Event) : list Conn :=
  flat_map (fun e => match e with Dial conn => [conn] | _ => [] end) es.

(** Neither statement of [Shutdown] is among the events. *)
Definition undisturbed (es : list Event) : bool :=
  forallb (fun e => match e with Cancel | Close => false | _ => true end) es.

(** The connections that wait in the listener. *)
Definition backlog {P : Type} (st : Serving P) : list Conn :=
  match listener (server st) with
  | Some (Listening q) => q
  | _ => []
  end.

(** [Serve] is past [net.Listen]. *)
Definition in_loop {P : Type} (st : Serving P) : Prop :=
  forall port, pc st <> PcListen port.

(** Where [Serve] can stand once [Listen] succeeded. *)
Definition listened {P : Type} (st : Serving P) : Prop :=
  pc st = PcSelect \/ pc st = PcAccept \/ pc st = PcReturned None.

(** Nothing was bound, served or printed. *)
Definition unbound {P : Type} (st : Serving P) : Prop :=
  listener (server st) = None /\ spawned st = [] /\ stdout st = [].

End ServeEvents.

(* ===================================================================== *)
(** * Reading a run of effects                                            *)
(* ===================================================================== *)

Module Observations.
Import Browser.

(** The effects of one kind in a run, in their order. *)
Definition collect {A : Type} (pick : Effect -> option A) (t : list Effect) : list A :=
  flat_map (fun e => match pick e with Some a => [a] | None => [] end) t.




Definition closed_socket (e : Effect) : option (Socket * nat * string) :=
  match e with SocketClose ws code reason => Some (ws, code, reason) | _ => None end.

Definition aborted_controller (e : Effect) : option Controller :=
  match e with Abort c => Some c | _ => None end.

(** [readyState === OPEN || readyState === CONNECTING] *)
Definition closable (b : Page) (ws : Socket) : bool :=
  match readyState b ws with
  | OPEN | CONNECTING => true
  | _ => false
  end.

(** What releases the resource that an effect started: the timer is
    cleared, the listener is removed with the options it was added with. *)
Definition released (t : list Effect) (e : Effect) : Prop :=
  match e with
  | SetInterval _ _ id => In (ClearInterval id) t
  | SetTimeout _ _ id => In (ClearTimeout id) t
  | AddEventListener target ev h o => In (RemoveEventListener target ev h (Some o)) t
  | _ => True
  end.

(** The resource that an effect started is held by the registry of
    timers or of listeners it belongs to. *)
Definition held (intervals timeouts : list TimerId)
    (listeners : list (Target * list Binding)) (e : Effect) : Prop :=
  match e with
  | SetInterval _ _ id => In id intervals
  | SetTimeout _ _ id => In id timeouts
  | AddEventListener target ev h o =>
      exists ls, get target listeners = Some ls
                 /\ In {| event := ev; handler := h; options := o |} ls
  | _ => True
  end.

(** [held] by the registries of the dashboard's manager. *)
Definition held_by (s : ResourceManager.Manager) : Effect -> Prop :=
  held (ResourceManager.intervals s) (ResourceManager.timeouts s)
       (ResourceManager.eventListeners s).

(** An operation on the dashboard's manager other than [cleanup] and
    other than registering an abort closure, which that manager never
    makes. *)
Definition plain (op : ResourceManager.Op) : bool :=
  match op with
  | ResourceManager.Cleanup => false
  | ResourceManager.OnCleanup (VFunction (AbortFn _)) => false
  | _ => true
  end.

End Observations.

(* ===================================================================== *)
(** * The GitHub dashboard plugin                                         *)
(* ===================================================================== *)

Module Dashboard.
Import Json PluginServer.
Local Open Scope string_scope.

(** [type Config struct] *)
Record Config : Type := {
  GitHubToken : string;
  Repositories : list string;
  RefreshInterval : Z
}.

(** [type Plugin struct]; of the HTTP client only whether it is set. *)
Record Plugin : Type := {
  config : Config;
  client : bool
}.

(** [NewPlugin]: [&Plugin{}] *)
Definition NewPlugin : Plugin :=
  {| config := {| GitHubToken := EmptyString; Repositories := []; RefreshInterval := 0 |};
     client := false |}.

(** What the plugin does not decide itself: how [encoding/json] stores a
    text in the [Config] it is given (the [Config] after it and its
    error), and what the requests to the GitHub API return. *)
Record Outside : Type := {
  UnmarshalConfig : string -> Config -> Config * error;
  getRepositories : Plugin -> string * error;
  getPullRequests : string -> Plugin -> string * error;
  checkGitHubConnectivity : Plugin -> error;
  checkTokenValidity : Plugin -> error
}.

(** [strings.HasPrefix], [strings.HasSuffix], [strings.TrimPrefix],
    [strings.TrimSuffix] *)
Fixpoint take (n : nat) (s : string) : string :=
  match n, s with
  | S n', String c s' => String c (take n' s')
  | _, _ => EmptyString
  end.

Definition HasPrefix (s prefix : string) : bool := RunPlugin.HasPrefix s prefix.

Definition HasSuffix (s suffix : string) : bool :=
  Nat.leb (String.length suffix) (String.length s)
  && String.eqb (RunPlugin.drop (String.length s - String.length suffix) s) suffix.

Definition TrimPrefix (s prefix : string) : string :=
  if HasPrefix s prefix then RunPlugin.drop (String.length prefix) s else s.

Definition TrimSuffix (s suffix : string) : string :=
  if HasSuffix s suffix then take (String.length s - String.length suffix) s else s.

Definition with_config (c : Config) (p : Plugin) : Plugin :=
  {| config := c; client := client p |}.

Section Methods.

Context (codec : Codec) (out : Outside).

(** [Initialize]; [json.Marshal] of a map of JSON values does not fail. *)
Definition Initialize (cfg : gomap) (p : Plugin) : error * Plugin :=
  let configBytes := Marshal codec (JObj cfg) in
  let (c, err) := UnmarshalConfig out configBytes (config p) in
  match err with
  | Some text => (Some ("failed to unmarshal config: " ++ text), with_config c p)
  | None =>
      if String.eqb (GitHubToken c) EmptyString
      then (Some "github_token is required", with_config c p)
      else
        let c' :=
          if Z.leb (RefreshInterval c) 0
          then {| GitHubToken := GitHubToken c; Repositories := Repositories c;
                  RefreshInterval := 300 |}
          else c in
        (None, {| config := c'; client := true |})
  end.

(** [Start] hands [backgroundRefresh] to a goroutine and returns nil. *)
Definition Start (ctx_cancelled : bool) (p : Plugin) : error * Plugin := (None, p).

Definition Stop (p : Plugin) : error * Plugin := (None, p).

Definition GetInfo (p : Plugin) : gomap * Plugin :=
  (literal [("name", JStr "GitHub Dashboard");
            ("version", JStr "1.0.0");
            ("status", JStr "running");
            ("repositories",
             JNum (decimal (N.of_nat (length (Repositories (config p))))))],
   p).

(** [forceRefresh]: the encoding of [map[string]string{"status": "refreshed"}] *)
Definition forceRefresh : string * error :=
  (Marshal codec (JObj [("status", JStr "refreshed")]), None).

Definition HandleRequest (method path body : string) (p : Plugin)
  : (string * error) * Plugin :=
  if String.eqb method "GET" && String.eqb path "/repositories"
  then (getRepositories out p, p)
  else if String.eqb method "GET" && HasPrefix path "/repositories/"
          && HasSuffix path "/pulls"
  then
    let repo := TrimPrefix path "/repositories/" in
    let repo := TrimSuffix repo "/pulls" in
    (getPullRequests out repo p, p)
  else if String.eqb method "POST" && String.eqb path "/refresh"
  then (forceRefresh, p)
  else ((EmptyString, Some ("endpoint not found: " ++ method ++ " " ++ path)), p).

Definition HealthCheck (checkName : string) (p : Plugin) : error * Plugin :=
  if String.eqb checkName "github_api_connectivity"
  then (checkGitHubConnectivity out p, p)
  else if String.eqb checkName "token_validity"
  then (checkTokenValidity out p, p)
  else (Some ("unknown health check: " ++ checkName), p).

(** The plugin as the server sees it. *)
Definition api : PluginAPI Plugin :=
  {| PluginServer.Initialize := Initialize;
     PluginServer.Start := Start;
     PluginServer.Stop := Stop;
     PluginServer.GetInfo := GetInfo;
     PluginServer.HandleRequest := HandleRequest;
     PluginServer.HealthCheck := HealthCheck |}.

End Methods.

(** An [int64] product, as the machine computes it. *)
Definition wrap64 (z : Z) : Z :=
  ((z + 9223372036854775808) mod 18446744073709551616 - 9223372036854775808)%Z.

(** [time.Duration(p.config.RefreshInterval) * time.Second], the interval
    [backgroundRefresh] gives to [time.NewTicker]. *)
Definition ticker_interval (p : Plugin) : Z :=
  wrap64 (RefreshInterval (config p) * 1000000000).

(** [time.NewTicker] panics unless its interval is positive. *)
Definition backgroundRefresh_panics (p : Plugin) : bool :=
  Z.leb (ticker_interval p) 0.

(** An outside where the network is down and the configuration holds
    strings only: [github_token] is stored, every other key is left. *)
Definition offline : Outside :=
  {| UnmarshalConfig := fun text c =>
       match Parse go text with
       | inl (JObj members) =>
           match lookup "github_token" members with
           | Some (JStr token) =>
               ({| GitHubToken := token; Repositories := Repositories c;
                   RefreshInterval := RefreshInterval c |}, None)
           | _ => (c, None)
           end
       | inl _ => (c, None)
       | inr e => (c, Some e)
       end;
     getRepositories := fun _ => (EmptyString, Some "dial tcp: no route to host");
     getPullRequests := fun _ _ => (EmptyString, Some "dial tcp: no route to host");
     checkGitHubConnectivity := fun _ => Some "dial tcp: no route to host";
     checkTokenValidity := fun _ => Some "dial tcp: no route to host" |}.

End Dashboard.

(* ===================================================================== *)
(** * The JSON linter's frontend: lines of the input                      *)
(* ===================================================================== *)

Module Linter.
Import Json.

(** A string is the sequence of its code units; of a unit only whether it
    is a line feed matters here. *)

(** [s.split("\n").length] *)
Fixpoint split_length (s : string) : nat :=
  match s with
  | EmptyString => 1
  | String c r => if ch_is 10 c then S (split_length r) else split_length r
  end.

(** [lineCount]: [inputJSON.value ? inputJSON.value.split("\n").length : 0] *)
Definition lineCount (input : string) : nat :=
  match input with
  | EmptyString => 0
  | String _ _ => split_length input
  end.

(** The line [validateAndFormat] gives for the position of a parse error:
    [inputJSON.value.substring(0, position).split("\n").length] *)
Definition lineOfPosition (input : string) (position : nat) : nat :=
  split_length (Dashboard.take position input).

End Linter.

(* ===================================================================== *)
(** * Properties of the plugin server                                     *)
(* ===================================================================== *)

Module PluginServerFacts.
Import Json PluginServer Probe.
Local Open Scope string_scope.

Section Transport.

Context {P : Type} (api : PluginAPI P) (codec : Codec).

Lemma bind_run {A B : Type} (m : M P A) (k : A -> M P B) (s : Server P) :
  bind m k s =
  (value (k (value (m s)) (after (m s))),
   after (k (value (m s)) (after (m s))),
   (calls (m s) ++ calls (k (value (m s)) (after (m s))))%list).
Proof.
  unfold bind, value, after, calls.
  destruct (m s) as [[a s1] c1]; simpl.
  destruct (k a s1) as [[b s2] c2]; reflexivity.
Qed.

Lemma handleLine_empty (s : Server P) :
  handleLine api codec EmptyString s = ([], s, []).
Proof. reflexivity. Qed.

Lemma nonempty_false (line : string) : nonempty line = false -> line = EmptyString.
Proof.
  unfold nonempty; intros H.
  apply negb_false_iff in H. now apply String.eqb_eq.
Qed.

Lemma nonempty_true (line : string) : line <> EmptyString -> nonempty line = true.
Proof.
  unfold nonempty; intros H.
  apply negb_true_iff. now apply String.eqb_neq.
Qed.

(** A line that is not empty gets exactly one response. *)
Lemma handleLine_single (line : string) (s : Server P) :
  nonempty line = true ->
  exists r, value (handleLine api codec line s) = [r].
Proof.
  unfold nonempty, handleLine; intros H.
  apply negb_true_iff in H; rewrite H.
  destruct (UnmarshalRequest codec line) as [req | err].
  - rewrite bind_run. eexists; reflexivity.
  - eexists; reflexivity.
Qed.

Lemma handleConnection_cons (line : string) (rest : Conn) (s : Server P) :
  handleConnection api codec (line :: rest) s =
  let r1 := handleLine api codec line s in
  let r2 := handleConnection api codec rest (after r1) in
  ((value r1 ++ value r2)%list, after r2, (calls r1 ++ calls r2)%list).
Proof.
  cbn [handleConnection]. rewrite bind_run, bind_run.
  unfold ret, value, after, calls; simpl.
  now rewrite app_nil_r.
Qed.

Lemma handleConnection_app (before rest : Conn) (s : Server P) :
  handleConnection api codec (before ++ rest)%list s =
  let r1 := handleConnection api codec before s in
  let r2 := handleConnection api codec rest (after r1) in
  ((value r1 ++ value r2)%list, after r2, (calls r1 ++ calls r2)%list).
Proof.
  revert s; induction before as [| line before IH]; intros s.
  - cbn. destruct (handleConnection api codec rest s) as [[a s'] c]; reflexivity.
  - rewrite <- app_comm_cons, !handleConnection_cons; cbn zeta.
    rewrite IH; cbn zeta. unfold value, after, calls; simpl.
    now rewrite !app_assoc.
Qed.

Lemma responses_count (lines : Conn) (s : Server P) :
  length (value (handleConnection api codec lines s)) = length (filter nonempty lines).
Proof.
  revert s; induction lines as [| line lines IH]; intros s.
  - reflexivity.
  - rewrite handleConnection_cons; cbn zeta. unfold value at 1; cbn [fst].
    rewrite length_app, IH. cbn [filter].
    destruct (nonempty line) eqn:E.
    + destruct (handleLine_single line s E) as [r Hr]. now rewrite Hr.
    + apply nonempty_false in E; subst line. now rewrite handleLine_empty.
Qed.

(** C2, as the code has it: the server encodes exactly one Response for
    each line that is not empty, and the Response of a line stands at the
    place given by the number of non-empty lines read before it. *)
Theorem one_response_per_nonempty_line (lines : Conn) (s : Server P) :
  length (value (handleConnection api codec lines s)) = length (filter nonempty lines)
  /\ forall (before : Conn) (line : string) (rest : Conn),
       lines = (before ++ line :: rest)%list ->
       line <> EmptyString ->
       exists r,
         value (handleLine api codec line (after (handleConnection api codec before s))) = [r]
         /\ nth_error (value (handleConnection api codec lines s))
              (length (filter nonempty before)) = Some r.
Proof.
  split; [apply responses_count |].
  intros before line rest -> Hne.
  destruct (handleLine_single line (after (handleConnection api codec before s))
              (nonempty_true line Hne)) as [r Hr].
  exists r; split; [exact Hr |].
  rewrite handleConnection_app; cbn zeta. unfold value at 1; cbn [fst].
  rewrite nth_error_app2 by (rewrite responses_count; lia).
  rewrite responses_count, Nat.sub_diag.
  rewrite handleConnection_cons; cbn zeta. unfold value at 1; cbn [fst].
  now rewrite Hr.
Qed.

(** C10: an empty line gets no Response, reaches nothing and changes
    nothing, so the connection behaves as if the line had not been sent,
    and a peer that sent a blank line counts fewer Responses than lines;
    yet the empty text is not well-formed JSON. *)
Theorem empty_line_skipped (before rest : Conn) (s : Server P) :
  handleLine api codec EmptyString s = ([], s, [])
  /\ handleConnection api codec (before ++ EmptyString :: rest)%list s
     = handleConnection api codec (before ++ rest)%list s
  /\ (forall lines : Conn,
        In EmptyString lines ->
        length (value (handleConnection api codec lines s)) < length lines)
  /\ ~ well_formed go EmptyString.
Proof.
  split; [reflexivity |]. split; [| split].
  - rewrite !handleConnection_app; cbn zeta.
    rewrite handleConnection_cons; cbn zeta.
    rewrite handleLine_empty. unfold value, after, calls; cbn [fst snd app].
    destruct (handleConnection api codec rest _) as [[a s'] c]; reflexivity.
  - intros lines Hin. rewrite responses_count.
    induction lines as [| l lines IH]; [contradiction |].
    cbn [filter length]. destruct Hin as [-> | Hin].
    + cbn. pose proof (filter_length_le nonempty lines). lia.
    + specialize (IH Hin). destruct (nonempty l); cbn [length]; lia.
  - intros [t Ht]. discriminate Ht.
Qed.

(** C5, as the code has it: a line that is not empty and not well-formed
    JSON gets a Response with [success:false] whose error is the decoder's
    message after [invalid request format: ]; it reaches no plugin call and
    changes nothing, and the lines after it are handled as they would be
    without it. *)
Theorem malformed_line_recovered (before : Conn) (bad : string) (rest : Conn)
    (s : Server P) :
  bad <> EmptyString ->
  ~ well_formed codec bad ->
  let r0 := handleConnection api codec before s in
  let r1 := handleConnection api codec rest (after r0) in
  exists err,
    Parse codec bad = inr err
    /\ handleLine api codec bad (after r0)
       = ([failure ("invalid request format: " ++ err)], after r0, [])
    /\ handleConnection api codec (before ++ bad :: rest)%list s
       = ((value r0 ++ failure ("invalid request format: " ++ err) :: value r1)%list,
          after r1, (calls r0 ++ calls r1)%list).
Proof.
  intros Hne Hbad r0 r1.
  destruct (Parse codec bad) as [t | err] eqn:E.
  { exfalso; apply Hbad; now exists t. }
  exists err. split; [reflexivity |].
  assert (Hline : forall s0, handleLine api codec bad s0
                  = ([failure ("invalid request format: " ++ err)], s0, [])).
  { intros s0. unfold handleLine, UnmarshalRequest.
    apply String.eqb_neq in Hne. rewrite Hne, E. reflexivity. }
  split; [apply Hline |].
  rewrite handleConnection_app; cbn zeta.
  rewrite handleConnection_cons; cbn zeta.
  rewrite Hline. unfold value, after, calls; cbn [fst snd app].
  reflexivity.
Qed.

End Transport.

Section Dispatch.

Context {P : Type} (api : PluginAPI P) (codec : Codec).

(** C1, as the code has it: a start request always reaches the Plugin
    Implementation's [Start], once, with the server's context, whatever was
    or was not called before; the Response is [success:true] when [Start]
    returns nil and carries its error text otherwise. *)
Theorem handleStart_always_invokes_Start (req : Request) (s : Server P) :
  Method req = "start" ->
  let r := Start api (ctx_done s) (plugin s) in
  handleRequest api codec req s
  = (match fst r with Some text => failure text | None => success [] end,
     {| plugin := snd r; listener := listener s; ctx_done := ctx_done s |},
     [CallStart (ctx_done s)]).
Proof.
  intros H r. unfold handleRequest. rewrite H. cbn [String.eqb Ascii.eqb Bool.eqb].
  unfold handleStart, bind, ctx, invoke, ret. fold r.
  destruct r as [[text |] p']; reflexivity.
Qed.


(** C4: an initialize request whose data holds no mapping under [config]
    is answered [success:false] with an error; no method of the Plugin
    Implementation is called and the server, the plugin's state with it, is
    left as it was. *)
Theorem initialize_without_config_rejected (req : Request) (s : Server P) :
  Method req = "initialize" ->
  (forall config, lookup "config" (Data req) <> Some (JObj config)) ->
  handleRequest api codec req s = (failure "config is required", s, []).
Proof.
  intros H Hno. unfold handleRequest. rewrite H.
  cbn [String.eqb Ascii.eqb Bool.eqb].
  unfold handleInitialize.
  destruct (lookup "config" (Data req)) as [[| | | | | config] |]; try reflexivity.
  exfalso; now apply (Hno config).
Qed.

(** C6, as the code has it: an execute_action request calls
    [HandleRequest] once with POST, /execute and the JSON encoding of the
    value under the key [data] of the request's data (of nil when there is
    none); when that returns no error the Response is [success:true] and
    its result maps [result] to the decoded bytes (to nil when they do not
    decode), otherwise it is [success:false] with the error text as it is. *)
Theorem handleExecuteAction_forwards_nested_data (req : Request) (s : Server P) :
  Method req = "execute_action" ->
  let body := Marshal codec (value_at "data" (Data req)) in
  let r := HandleRequest api "POST" "/execute" body (plugin s) in
  handleRequest api codec req s
  = (match snd (fst r) with
     | Some text => failure text
     | None =>
         success [("result",
                   match Unmarshal codec (fst (fst r)) with
                   | inl v => v
                   | inr _ => JNull
                   end)]
     end,
     {| plugin := snd r; listener := listener s; ctx_done := ctx_done s |},
     [CallHandleRequest "POST" "/execute" body]).
Proof.
  intros H body r. unfold handleRequest. rewrite H.
  cbn [String.eqb Ascii.eqb Bool.eqb].
  unfold handleExecuteAction, bind, invoke, ret. fold body. fold r.
  destruct r as [[result [text |]] p']; reflexivity.
Qed.

End Dispatch.

(** ** Concrete runs *)

(** C1 fails as stated: on a server that never saw an initialize request,
    a start request is answered [success:true] and [Start] was called. *)
Lemma start_before_initialize_reaches_Start :
  let r := handleConnection (failing "unreachable") go
             [wire "{'method':'start','action':'','data':{}}"] fresh in
  value r = [success []]
  /\ calls r = [CallStart false]
  /\ plugin (after r) = Running.
Proof. vm_compute. repeat split. Qed.

Lemma handleStart_always_invokes_Start_witness :
  handleRequest (failing "unreachable") go
    {| Method := "start"; Action := EmptyString; Data := [] |} fresh
  = (success [],
     {| plugin := Running; listener := None; ctx_done := false |},
     [CallStart false]).
Proof.
  exact (handleStart_always_invokes_Start (failing "unreachable") go
           {| Method := "start"; Action := EmptyString; Data := [] |} fresh eq_refl).
Defined.

(** C2 fails as stated: three lines read, one of them blank, two
    Responses. *)
Lemma blank_line_gets_no_response :
  let lines := [wire "{'method':'get_info'}"; EmptyString; wire "{'method':'stop'}"] in
  let r := handleConnection (failing "unreachable") go lines fresh in
  length lines = 3 /\ length (value r) = 2.
Proof. vm_compute. split; reflexivity. Qed.

Lemma one_response_per_nonempty_line_witness :
  exists r,
    value (handleLine (failing "unreachable") go (wire "{'method':'stop'}")
             (after (handleConnection (failing "unreachable") go
                       [wire "{'method':'get_info'}"; EmptyString] fresh))) = [r]
    /\ nth_error
         (value (handleConnection (failing "unreachable") go
                   [wire "{'method':'get_info'}"; EmptyString; wire "{'method':'stop'}"]
                   fresh)) 1 = Some r.
Proof.
  exact (proj2 (one_response_per_nonempty_line (failing "unreachable") go
                  [wire "{'method':'get_info'}"; EmptyString; wire "{'method':'stop'}"]
                  fresh)
           [wire "{'method':'get_info'}"; EmptyString] (wire "{'method':'stop'}") []
           eq_refl ltac:(discriminate)).
Defined.


Lemma initialize_without_config_rejected_witness :
  handleRequest (failing "unreachable") go
    {| Method := "initialize"; Action := EmptyString;
       Data := [("config", JStr "token")] |} fresh
  = (failure "config is required", fresh, []).
Proof.
  apply initialize_without_config_rejected; [reflexivity |].
  intros config; vm_compute; discriminate.
Defined.

(** C5 fails as stated: the empty line is not well-formed JSON and gets no
    Response. *)
Lemma empty_line_is_malformed_without_response :
  ~ well_formed go EmptyString
  /\ value (handleConnection (failing "unreachable") go [EmptyString] fresh) = [].
Proof.
  split; [| reflexivity]. intros [t Ht]; discriminate Ht.
Qed.

Lemma malformed_line_recovered_witness :
  exists err,
    Parse go "{oops" = inr err
    /\ handleLine (failing "unreachable") go "{oops" fresh
       = ([failure ("invalid request format: " ++ err)], fresh, [])
    /\ handleConnection (failing "unreachable") go
         ([] ++ "{oops" :: [wire "{'method':'stop'}"])%list fresh
       = (([] ++ [failure ("invalid request format: " ++ err); success []])%list,
          {| plugin := Stopped; listener := None; ctx_done := false |},
          ([] ++ [CallStop])%list).
Proof.
  apply (malformed_line_recovered (failing "unreachable") go []
           "{oops" [wire "{'method':'stop'}"] fresh).
  - discriminate.
  - intros [t Ht]; vm_compute in Ht; discriminate Ht.
Defined.

(** C6 fails as stated: the request's data is [{x: 1}], the body that
    reaches [HandleRequest] is the text [null]. *)
Lemma execute_action_body_is_not_request_data :
  let req := {| Method := "execute_action"; Action := EmptyString;
                Data := [("x", JNum "1")] |} in
  let r := handleRequest (failing "unreachable") go req fresh in
  Marshal go (JObj (Data req)) = wire "{'x':1}"
  /\ calls r = [CallHandleRequest "POST" "/execute" "null"]
  /\ calls r <> [CallHandleRequest "POST" "/execute" (Marshal go (JObj (Data req)))].
Proof.
  vm_compute. repeat split. discriminate.
Qed.

Lemma handleExecuteAction_forwards_nested_data_witness :
  handleRequest (failing "unreachable") go
    {| Method := "execute_action"; Action := EmptyString;
       Data := [("data", JObj [("x", JNum "1")])] |} fresh
  = (success [("result", JObj [("x", JNum "1")])],
     fresh,
     [CallHandleRequest "POST" "/execute" (wire "{'x':1}")]).
Proof.
  exact (handleExecuteAction_forwards_nested_data (failing "unreachable") go
           {| Method := "execute_action"; Action := EmptyString;
              Data := [("data", JObj [("x", JNum "1")])] |} fresh eq_refl).
Defined.

Lemma empty_line_skipped_witness :
  length (value (handleConnection (failing "unreachable") go
                   [EmptyString; wire "{'method':'stop'}"] fresh)) < 2.
Proof.
  apply (proj1 (proj2 (proj2 (empty_line_skipped (failing "unreachable") go [] [] fresh)))
           [EmptyString; wire "{'method':'stop'}"]).
  left; reflexivity.
Defined.

(** ** Shutdown *)

Section Shutdown.

Context {P : Type} (listen_error : N -> error).

(** C9: [Shutdown] closes the listener besides cancelling the context.  A
    [Serve] that stands in its loop returns nil within two steps after it;
    one that is blocked inside [Accept] returns nil at once, where
    cancelling alone would leave it blocked until a peer connects. *)
Theorem Shutdown_unblocks_Accept (st : Serving P) :
  listener (server st) <> None ->
  let down := on_server Shutdown st in
  listener (server down) = Some ListenerClosed
  /\ ctx_done (server down) = true
  /\ (pc st = PcSelect \/ pc st = PcAccept ->
      pc (Serve_run listen_error 2 down) = PcReturned None)
  /\ (pc st = PcAccept ->
      Serve_step listen_error st = None ->
      (exists st', Serve_step listen_error down = Some st' /\ pc st' = PcReturned None)
      /\ Serve_step listen_error (on_server cancel st) = None
      /\ forall conn,
           pc (Serve_run listen_error 2 (on_server (dial conn) (on_server cancel st)))
           = PcReturned None).
Proof.
  intros Hl down. subst down.
  destruct st as [[p l d] c sp out]; cbn in *.
  destruct l as [l |]; [| congruence].
  unfold on_server, Shutdown, close_listener, cancel, with_listener; cbn.
  split; [reflexivity |]. split; [reflexivity |]. split.
  - intros [-> | ->]; reflexivity.
  - intros -> Hblocked. cbn in Hblocked.
    destruct l as [[| conn' backlog] |]; cbn in Hblocked;
      try discriminate; [| destruct d; discriminate].
    split; [eexists; split; reflexivity |].
    split; [reflexivity |].
    intros conn; reflexivity.
Qed.

End Shutdown.

(** A server whose [Serve] waits inside [Accept], nobody connecting. *)
Lemma Shutdown_unblocks_Accept_witness :
  let st := Serve_run (fun _ => None) 2 (Serve Uninitialized 50051%N) in
  pc st = PcAccept
  /\ Serve_step (fun _ => None) st = None
  /\ pc (Serve_run (fun _ => None) 2 (on_server Shutdown st)) = PcReturned None
  /\ Serve_step (fun _ => None) (on_server cancel st) = None.
Proof.
  pose proof (Shutdown_unblocks_Accept (fun _ => None)
                (Serve_run (fun _ => None) 2 (Serve Uninitialized 50051%N))
                ltac:(discriminate)) as H.
  cbv zeta in H. destruct H as (_ & _ & Hloop & Hblocked).
  split; [reflexivity |]. split; [reflexivity |].
  split; [apply Hloop; right; reflexivity |].
  apply (Hblocked eq_refl eq_refl).
Defined.

End PluginServerFacts.

(* ===================================================================== *)
(** * Properties of the resource managers                                 *)
(* ===================================================================== *)

Module BrowserFacts.
Import Browser.

Lemma Fn_eqb_eq (f g : Fn) : Fn_eqb f g = true <-> f = g.
Proof.
  destruct f as [i t | c], g as [j u | d]; cbn; split; intros H;
    try discriminate; try congruence.
  - apply andb_true_iff in H as [Hi Ht].
    apply Nat.eqb_eq in Hi. apply Bool.eqb_prop in Ht. congruence.
  - injection H as -> ->. now rewrite Nat.eqb_refl, Bool.eqb_reflx.
  - apply Nat.eqb_eq in H. congruence.
  - injection H as ->. apply Nat.eqb_refl.
Qed.

Section SetFacts.

Context {A : Type} (eqb : A -> A -> bool).
Hypothesis eqb_eq : forall x y, eqb x y = true <-> x = y.

Lemma has_In (x : A) (l : list A) : has eqb x l = true <-> In x l.
Proof.
  unfold has. rewrite existsb_exists. split.
  - intros [y [Hy E]]. apply eqb_eq in E. now subst.
  - intros H. exists x. split; [assumption | now apply eqb_eq].
Qed.

Lemma In_add (x y : A) (l : list A) : In x (add eqb y l) <-> x = y \/ In x l.
Proof.
  unfold add. destruct (has eqb y l) eqn:E.
  - apply has_In in E. split; [now right | intros [-> | H]; assumption].
  - rewrite in_app_iff. cbn. intuition.
Qed.

Lemma NoDup_add (y : A) (l : list A) : NoDup l -> NoDup (add eqb y l).
Proof.
  intros H. unfold add. destruct (has eqb y l) eqn:E; [assumption |].
  apply NoDup_app; [assumption | repeat constructor; intros [] | ].
  intros x Hx [<- | []].
  apply has_In in Hx. congruence.
Qed.

(** An element of a list without repetition is found once. *)
Lemma NoDup_count (x : A) (l : list A) :
  NoDup l -> In x l -> length (filter (fun y => eqb y x) l) = 1.
Proof.
  induction 1 as [| y l Hy Hl IH]; [contradiction |].
  intros [-> | Hin]; cbn.
  - rewrite (proj2 (eqb_eq x x) eq_refl). cbn. f_equal.
    rewrite (proj2 (length_zero_iff_nil _)); [reflexivity |].
    destruct (filter (fun y => eqb y x) l) as [| z zs] eqn:E; [reflexivity |].
    assert (Hz : In z (filter (fun y => eqb y x) l)) by (rewrite E; now left).
    apply filter_In in Hz as [Hz Hzx]. apply eqb_eq in Hzx. now subst.
  - destruct (eqb y x) eqn:E; [| now apply IH].
    apply eqb_eq in E. now subst.
Qed.

End SetFacts.

Lemma invocations_app (f : Fn) (t1 t2 : list Effect) :
  invocations f (t1 ++ t2) = invocations f t1 + invocations f t2.
Proof. unfold invocations. now rewrite filter_app, length_app. Qed.

(** A run in which no handler is called. *)
Lemma invocations_none (f : Fn) (t : list Effect) :
  Forall (fun e => match e with Called _ => False | _ => True end) t ->
  invocations f t = 0.
Proof.
  unfold invocations. induction 1 as [| e t He Ht IH]; [reflexivity |].
  cbn. destruct e; try contradiction; exact IH.
Qed.

Lemma call_handlers_invocations (warning : string) (f : Fn) (fs : list Fn) (b : Page) :
  invocations f (snd (call_handlers warning fs b))
  = length (filter (fun g => Fn_eqb g f) fs).
Proof.
  revert b; induction fs as [| g fs IH]; intros b; [reflexivity |].
  cbn [call_handlers].
  destruct (call_handler warning g b) as [b1 t1] eqn:E1.
  specialize (IH b1). destruct (call_handlers warning fs b1) as [b2 t2].
  cbn [snd] in *. rewrite invocations_app, IH. cbn [filter].
  assert (H1 : invocations f t1 = if Fn_eqb g f then 1 else 0).
  { destruct g as [i throws | c]; cbn in E1; injection E1 as <- <-;
      unfold invocations; cbn [filter];
      [destruct throws |]; cbn [filter app];
      destruct (Fn_eqb _ f); reflexivity. }
  rewrite H1. destruct (Fn_eqb g f); reflexivity.
Qed.

Lemma remove_all_listeners_quiet (m : list (Target * list Binding)) :
  Forall (fun e => match e with Called _ => False | _ => True end)
    (remove_all_listeners m).
Proof.
  unfold remove_all_listeners. apply Forall_forall. intros e He.
  apply in_flat_map in He as [tl [_ He]].
  apply in_map_iff in He as [l [<- _]]. exact I.
Qed.

Lemma map_quiet {X : Type} (g : X -> Effect) (l : list X) :
  (forall x, match g x with Called _ => False | _ => True end) ->
  Forall (fun e => match e with Called _ => False | _ => True end) (map g l).
Proof.
  intros H. apply Forall_forall. intros e He.
  apply in_map_iff in He as [x [<- _]]. apply H.
Qed.

End BrowserFacts.

Module DelvePluginSDKFacts.
Import Browser BrowserFacts DelvePluginSDK.

Lemma close_sockets_quiet (wss : list Socket) (b : Page) :
  Forall (fun e => match e with Called _ => False | _ => True end)
    (snd (close_sockets wss b)).
Proof.
  revert b; induction wss as [| ws wss IH]; intros b; cbn; [constructor |].
  destruct (readyState b ws); try apply IH.
  - specialize (IH (set_readyState ws CLOSING b)).
    destruct (close_sockets wss _); cbn in *. now constructor.
  - specialize (IH (set_readyState ws CLOSING b)).
    destruct (close_sockets wss _); cbn in *. now constructor.
Qed.

(** Once the latch is set, [cleanup] returns at its first line. *)
Lemma cleanup_latched (w : World) :
  isShuttingDown (fst w) = true -> cleanup w = (w, []).
Proof. destruct w as [s b]; cbn. now intros ->. Qed.

(** The first [cleanup]: the latch it sets, the registries it leaves, the
    number of times it calls a handler. *)
Lemma cleanup_first (s : SDK) (b : Page) :
  isShuttingDown s = false ->
  fst (fst (cleanup (s, b))) = with_isShuttingDown true new
  /\ forall f, invocations f (snd (cleanup (s, b)))
               = length (filter (fun g => Fn_eqb g f) (cleanupHandlers s)).
Proof.
  intros H. unfold cleanup. rewrite H. cbn [cleanupHandlers isShuttingDown intervals
    timeouts eventListeners websockets with_isShuttingDown with_intervals with_timeouts
    with_eventListeners with_websockets with_cleanupHandlers].
  pose proof (close_sockets_quiet (websockets s) b) as Hs.
  destruct (close_sockets (websockets s) b) as [b1 ts]; cbn [snd] in Hs.
  pose proof (fun f => call_handlers_invocations
                "[Delve SDK] Error in cleanup handler:" f (cleanupHandlers s) b1) as Hh.
  destruct (call_handlers _ (cleanupHandlers s) b1) as [b2 th]; cbn [snd] in Hh.
  split; [reflexivity |].
  intros f. cbn [fst snd]. rewrite !invocations_app, Hh.
  rewrite (invocations_none f (map ClearInterval _)) by (apply map_quiet; intros; exact I).
  rewrite (invocations_none f (map ClearTimeout _)) by (apply map_quiet; intros; exact I).
  rewrite (invocations_none f (remove_all_listeners _)) by apply remove_all_listeners_quiet.
  rewrite (invocations_none f ts) by exact Hs.
  cbn. lia.
Qed.

(** No method but [cleanup] writes the latch. *)
Lemma perform_latch (op : Op) (w : World) :
  is_cleanup op = false ->
  isShuttingDown (fst (fst (perform op w))) = isShuttingDown (fst w).
Proof.
  destruct w as [s b]. destruct op; cbn; try discriminate; intros _; try reflexivity.
  - destruct v; reflexivity.
  - destruct (get target (eventListeners s)) as [ls |]; [| reflexivity].
    destruct (splice_first ev h ls); reflexivity.
  - destruct (has Nat.eqb ws (close_listeners b)); reflexivity.
Qed.

Lemma perform_NoDup (op : Op) (w : World) :
  NoDup (cleanupHandlers (fst w)) ->
  NoDup (cleanupHandlers (fst (fst (perform op w)))).
Proof.
  destruct w as [s b]. intros H.
  destruct op; cbn; try assumption.
  - destruct v; cbn; [apply (NoDup_add Fn_eqb Fn_eqb_eq) |]; assumption.
  - destruct (get target (eventListeners s)) as [ls |]; [| assumption].
    destruct (splice_first ev h ls); assumption.
  - destruct (isShuttingDown s); [assumption |].
    destruct (close_sockets _ _), (call_handlers _ _ _); cbn. constructor.
  - now apply (NoDup_add Fn_eqb Fn_eqb_eq).
  - destruct (has Nat.eqb ws (close_listeners b)); assumption.
Qed.

(** Short of [cleanup], the set of handlers only grows. *)
Lemma perform_handlers (op : Op) (w : World) (f : Fn) :
  is_cleanup op = false ->
  In f (cleanupHandlers (fst w)) \/ op = OnCleanup (VFunction f) ->
  In f (cleanupHandlers (fst (fst (perform op w)))).
Proof.
  destruct w as [s b]. intros Hc [H | ->].
  - destruct op; cbn; try discriminate; try assumption.
    + destruct v; cbn; [apply (In_add Fn_eqb Fn_eqb_eq); now right | assumption].
    + destruct (get target (eventListeners s)) as [ls |]; [| assumption].
      destruct (splice_first ev h ls); assumption.
    + apply (In_add Fn_eqb Fn_eqb_eq); now right.
    + destruct (has Nat.eqb ws (close_listeners b)); assumption.
  - cbn. apply (In_add Fn_eqb Fn_eqb_eq); now left.
Qed.

Lemma run_cons (op : Op) (ops : list Op) (w : World) :
  run (op :: ops) w
  = (fst (run ops (fst (perform op w))),
     (snd (perform op w) ++ snd (run ops (fst (perform op w))))%list).
Proof.
  cbn [run]. destruct (perform op w) as [w1 t1]; cbn [fst snd].
  destruct (run ops w1); reflexivity.
Qed.

(** What a run without [cleanup] leaves: the latch as it was, handlers
    without repetition, every function given to [onCleanup] among them. *)
Lemma run_before_cleanup (ops : list Op) (w : World) :
  Forall (fun op => is_cleanup op = false) ops ->
  NoDup (cleanupHandlers (fst w)) ->
  let w' := fst (run ops w) in
  isShuttingDown (fst w') = isShuttingDown (fst w)
  /\ NoDup (cleanupHandlers (fst w'))
  /\ forall f, In f (cleanupHandlers (fst w)) \/ In (OnCleanup (VFunction f)) ops ->
               In f (cleanupHandlers (fst w')).
Proof.
  intros Hops; revert w; induction Hops as [| op ops Hop Hops IH]; intros w Hnd.
  - cbn. repeat split; try assumption. intros f [H | []]; assumption.
  - rewrite run_cons; cbn [fst].
    destruct (IH (fst (perform op w)) (perform_NoDup op w Hnd)) as (Hl & Hn & Hin).
    cbv zeta in *. repeat split.
    + now rewrite Hl, perform_latch.
    + assumption.
    + intros f [H | [-> | H]].
      * apply Hin; left. apply perform_handlers; auto.
      * apply Hin; left. apply perform_handlers; auto.
      * apply Hin; now right.
Qed.

Lemma get_set_eq {V : Type} (k : Target) (v : V) (m : list (Target * V)) :
  get k (set k v m) = Some v.
Proof.
  induction m as [| [k' v'] m IH]; cbn.
  - now rewrite Nat.eqb_refl.
  - destruct (Nat.eqb k k') eqn:E; cbn; [now rewrite Nat.eqb_refl | now rewrite E].
Qed.

Lemma get_set_ne {V : Type} (k k0 : Target) (v : V) (m : list (Target * V)) :
  k0 <> k -> get k0 (set k v m) = get k0 m.
Proof.
  intros Hne. induction m as [| [k' v'] m IH]; cbn.
  - apply Nat.eqb_neq in Hne. now rewrite Hne.
  - destruct (Nat.eqb k k') eqn:E; cbn.
    + apply Nat.eqb_eq in E; subst k'.
      apply Nat.eqb_neq in Hne. now rewrite Hne.
    + destruct (Nat.eqb k0 k'); [reflexivity | exact IH].
Qed.

Lemma Nat_eqb_eq (x y : nat) : Nat.eqb x y = true <-> x = y.
Proof. apply Nat.eqb_eq. Qed.

(** One registration, or one more [cleanup], on a manager whose latch is
    set: nothing is released, what the registries held they still hold,
    and what was registered is held. *)
Lemma latched_step (op : Op) (s : SDK) (b : Page) :
  isShuttingDown s = true ->
  registers op || is_cleanup op = true ->
  let r := perform op (s, b) in
  let s' := fst (fst r) in
  (forall e, tracked s e -> tracked s' e)
  /\ (forall o, listed s o -> listed s' o)
  /\ Forall (fun e => releases e = false) (snd r)
  /\ Forall (tracked s') (snd r)
  /\ listed s' op.
Proof.
  intros Hl Hop.
  destruct op; cbn in Hop; try discriminate; cbn -[tracked listed].
  - (* onCleanup *)
    destruct v as [f |]; cbn -[tracked listed].
    + repeat split; try constructor.
      * intros [] H; cbn in *; try assumption.
        apply (In_add Fn_eqb Fn_eqb_eq); now right.
      * intros [[g |] | | | | | | | | | |] H; cbn in *; try assumption; try exact I.
        apply (In_add Fn_eqb Fn_eqb_eq); now right.
      * cbn. apply (In_add Fn_eqb Fn_eqb_eq); now left.
    + repeat split; try constructor; auto.
  - (* setManagedInterval *)
    repeat split.
    + intros [] H; cbn in *; try assumption.
      apply (In_add Nat.eqb Nat_eqb_eq); now right.
    + intros [[g |] | | | | | | | | | |] H; cbn in *; assumption || exact I.
    + repeat constructor.
    + repeat constructor. cbn. apply (In_add Nat.eqb Nat_eqb_eq); now left.
  - (* setManagedTimeout *)
    repeat split.
    + intros [] H; cbn in *; try assumption.
      apply (In_add Nat.eqb Nat_eqb_eq); now right.
    + intros [[g |] | | | | | | | | | |] H; cbn in *; assumption || exact I.
    + repeat constructor.
    + repeat constructor. cbn. apply (In_add Nat.eqb Nat_eqb_eq); now left.
  - (* addManagedEventListener *)
    repeat split.
    + intros [] H; cbn in *; try assumption.
      destruct H as [ls [Hget Hin]].
      destruct (Nat.eq_dec target0 target) as [-> | Hne].
      * rewrite Hget, get_set_eq. eexists; split; [reflexivity |].
        apply in_or_app; now left.
      * rewrite get_set_ne by assumption. now exists ls.
    + intros [[g |] | | | | | | | | | |] H; cbn in *; assumption || exact I.
    + repeat constructor.
    + repeat constructor. cbn. rewrite get_set_eq.
      eexists; split; [reflexivity |]. apply in_or_app; right; now left.
  - (* addManagedWebSocket *)
    repeat split; try constructor.
    + intros [] H; cbn in *; assumption.
    + intros [[g |] | | | | | | | | | |] H; cbn in *; try assumption; try exact I.
      apply (In_add Nat.eqb Nat_eqb_eq); now right.
    + cbn. apply (In_add Nat.eqb Nat_eqb_eq); now left.
  - (* cleanup *)
    rewrite Hl. cbn -[tracked listed]. repeat split; try constructor; auto.
  - (* managedFetch *)
    repeat split.
    + intros [] H; cbn in *; try assumption.
      apply (In_add Fn_eqb Fn_eqb_eq); now right.
    + intros [[g |] | | | | | | | | | |] H; cbn in *; try assumption; try exact I.
      apply (In_add Fn_eqb Fn_eqb_eq); now right.
    + repeat constructor.
    + repeat constructor. cbn. apply (In_add Fn_eqb Fn_eqb_eq); now left.
Qed.












End DelvePluginSDKFacts.

Module ResourceManagerFacts.
Import Browser BrowserFacts ResourceManager.

Lemma abort_all_quiet (cs : list Controller) (b : Page) :
  Forall (fun e => match e with Called _ => False | _ => True end)
    (snd (abort_all cs b)).
Proof.
  revert b; induction cs as [| c cs IH]; intros b; cbn; [constructor |].
  destruct (aborted b c); [apply IH |].
  specialize (IH (set_aborted c b)).
  destruct (abort_all cs _); cbn in *. now constructor.
Qed.

Lemma manager_cleanup_latched (w : World) :
  isShuttingDown (fst w) = true -> cleanup w = (w, []).
Proof. destruct w as [s b]; cbn. now intros ->. Qed.

Lemma manager_cleanup_first (s : Manager) (b : Page) :
  isShuttingDown s = false ->
  fst (fst (cleanup (s, b))) = with_isShuttingDown true new
  /\ forall f, invocations f (snd (cleanup (s, b)))
               = length (filter (fun g => Fn_eqb g f) (cleanupHandlers s)).
Proof.
  intros H. unfold cleanup. rewrite H. cbn [cleanupHandlers isShuttingDown intervals
    timeouts eventListeners abortControllers with_isShuttingDown with_intervals
    with_timeouts with_eventListeners with_abortControllers with_cleanupHandlers].
  pose proof (abort_all_quiet (abortControllers s) b) as Ha.
  destruct (abort_all (abortControllers s) b) as [b1 ta]; cbn [snd] in Ha.
  pose proof (fun f => call_handlers_invocations
                "[GitHub Dashboard] Error in cleanup handler:" f (cleanupHandlers s) b1)
    as Hh.
  destruct (call_handlers _ (cleanupHandlers s) b1) as [b2 th]; cbn [snd] in Hh.
  split; [reflexivity |].
  intros f. cbn [fst snd]. rewrite !invocations_app, Hh.
  rewrite (invocations_none f (map ClearInterval _)) by (apply map_quiet; intros; exact I).
  rewrite (invocations_none f (map ClearTimeout _)) by (apply map_quiet; intros; exact I).
  rewrite (invocations_none f (remove_all_listeners _)) by apply remove_all_listeners_quiet.
  rewrite (invocations_none f ta) by exact Ha.
  cbn. lia.
Qed.

Lemma manager_perform_latch (op : Op) (w : World) :
  is_cleanup op = false ->
  isShuttingDown (fst (fst (perform op w))) = isShuttingDown (fst w).
Proof.
  destruct w as [s b]. destruct op; cbn; try discriminate; intros _; try reflexivity.
  destruct v; reflexivity.
Qed.

Lemma manager_perform_NoDup (op : Op) (w : World) :
  NoDup (cleanupHandlers (fst w)) ->
  NoDup (cleanupHandlers (fst (fst (perform op w)))).
Proof.
  destruct w as [s b]. intros H.
  destruct op; cbn; try assumption.
  - destruct v; cbn; [apply (NoDup_add Fn_eqb Fn_eqb_eq) |]; assumption.
  - destruct (isShuttingDown s); [assumption |].
    destruct (abort_all _ _), (call_handlers _ _ _); cbn. constructor.
Qed.

Lemma manager_perform_handlers (op : Op) (w : World) (f : Fn) :
  is_cleanup op = false ->
  In f (cleanupHandlers (fst w)) \/ op = OnCleanup (VFunction f) ->
  In f (cleanupHandlers (fst (fst (perform op w)))).
Proof.
  destruct w as [s b]. intros Hc [H | ->].
  - destruct op; cbn; try discriminate; try assumption.
    destruct v; cbn; [apply (In_add Fn_eqb Fn_eqb_eq); now right | assumption].
  - cbn. apply (In_add Fn_eqb Fn_eqb_eq); now left.
Qed.

Lemma manager_run_cons (op : Op) (ops : list Op) (w : World) :
  run (op :: ops) w
  = (fst (run ops (fst (perform op w))),
     (snd (perform op w) ++ snd (run ops (fst (perform op w))))%list).
Proof.
  cbn [run]. destruct (perform op w) as [w1 t1]; cbn [fst snd].
  destruct (run ops w1); reflexivity.
Qed.

Lemma manager_run_before_cleanup (ops : list Op) (w : World) :
  Forall (fun op => is_cleanup op = false) ops ->
  NoDup (cleanupHandlers (fst w)) ->
  let w' := fst (run ops w) in
  isShuttingDown (fst w') = isShuttingDown (fst w)
  /\ NoDup (cleanupHandlers (fst w'))
  /\ forall f, In f (cleanupHandlers (fst w)) \/ In (OnCleanup (VFunction f)) ops ->
               In f (cleanupHandlers (fst w')).
Proof.
  intros Hops; revert w; induction Hops as [| op ops Hop Hops IH]; intros w Hnd.
  - cbn. repeat split; try assumption. intros f [H | []]; assumption.
  - rewrite manager_run_cons; cbn [fst].
    destruct (IH (fst (perform op w)) (manager_perform_NoDup op w Hnd)) as (Hl & Hn & Hin).
    cbv zeta in *. repeat split.
    + now rewrite Hl, manager_perform_latch.
    + assumption.
    + intros f [H | [-> | H]].
      * apply Hin; left. apply manager_perform_handlers; auto.
      * apply Hin; left. apply manager_perform_handlers; auto.
      * apply Hin; now right.
Qed.

End ResourceManagerFacts.

Module CleanupFacts.
Import Browser BrowserFacts.

(** C7: on a manager on which [cleanup] was not called yet, the first call
    calls every handler of the registry exactly once (every function given
    to [onCleanup] is one of them), and the second call returns at once:
    no effect, no handler called, manager and page as the first call left
    them.  It holds of both managers. *)
Theorem cleanup_twice_runs_handlers_once :
  (forall (ops : list DelvePluginSDK.Op) (page : Page),
      Forall (fun op => DelvePluginSDK.is_cleanup op = false) ops ->
      let w := fst (DelvePluginSDK.run ops (DelvePluginSDK.new, page)) in
      let first := DelvePluginSDK.cleanup w in
      let second := DelvePluginSDK.cleanup (fst first) in
      (forall f, In f (DelvePluginSDK.cleanupHandlers (fst w)) ->
                 invocations f (snd first) = 1)
      /\ (forall f, In (DelvePluginSDK.OnCleanup (VFunction f)) ops ->
                    In f (DelvePluginSDK.cleanupHandlers (fst w)))
      /\ second = (fst first, [])
      /\ (forall f, invocations f (snd second) = 0))
  /\ (forall (ops : list ResourceManager.Op) (page : Page),
        Forall (fun op => ResourceManager.is_cleanup op = false) ops ->
        let w := fst (ResourceManager.run ops (ResourceManager.new, page)) in
        let first := ResourceManager.cleanup w in
        let second := ResourceManager.cleanup (fst first) in
        (forall f, In f (ResourceManager.cleanupHandlers (fst w)) ->
                   invocations f (snd first) = 1)
        /\ (forall f, In (ResourceManager.OnCleanup (VFunction f)) ops ->
                      In f (ResourceManager.cleanupHandlers (fst w)))
        /\ second = (fst first, [])
        /\ (forall f, invocations f (snd second) = 0)).
Proof.
  split; intros ops page Hops w first second.
  - destruct (DelvePluginSDKFacts.run_before_cleanup ops (DelvePluginSDK.new, page)
                Hops (NoDup_nil _)) as (Hl & Hnd & Hin).
    fold w in Hl, Hnd, Hin. cbn in Hl.
    destruct w as [s b]; cbn [fst] in *.
    destruct (DelvePluginSDKFacts.cleanup_first s b Hl) as [Hstate Hcount].
    assert (Hsecond : second = (fst first, [])).
    { apply DelvePluginSDKFacts.cleanup_latched. subst first. now rewrite Hstate. }
    repeat split.
    + intros f Hf. subst first. rewrite Hcount.
      now apply (NoDup_count Fn_eqb Fn_eqb_eq).
    + intros f Hf. apply Hin; now right.
    + exact Hsecond.
    + intros f. now rewrite Hsecond.
  - destruct (ResourceManagerFacts.manager_run_before_cleanup ops (ResourceManager.new, page)
                Hops (NoDup_nil _)) as (Hl & Hnd & Hin).
    fold w in Hl, Hnd, Hin. cbn in Hl.
    destruct w as [s b]; cbn [fst] in *.
    destruct (ResourceManagerFacts.manager_cleanup_first s b Hl) as [Hstate Hcount].
    assert (Hsecond : second = (fst first, [])).
    { apply ResourceManagerFacts.manager_cleanup_latched. subst first. now rewrite Hstate. }
    repeat split.
    + intros f Hf. subst first. rewrite Hcount.
      now apply (NoDup_count Fn_eqb Fn_eqb_eq).
    + intros f Hf. apply Hin; now right.
    + exact Hsecond.
    + intros f. now rewrite Hsecond.
Qed.

(** A counter handler and a throwing one on the SDK, a handler and a
    pending fetch on the dashboard's manager. *)
Lemma cleanup_twice_runs_handlers_once_witness :
  let page := {| next_timer := 1; next_controller := 1;
                 readyState := fun _ => OPEN; aborted := fun _ => false;
                 close_listeners := [] |} in
  let sdk := fst (DelvePluginSDK.run
                    [DelvePluginSDK.OnCleanup (VFunction (UserFn 1 true));
                     DelvePluginSDK.SetManagedInterval 7 1000;
                     DelvePluginSDK.OnCleanup (VFunction (UserFn 2 false));
                     DelvePluginSDK.OnCleanup (VFunction (UserFn 2 false))]
                    (DelvePluginSDK.new, page)) in
  let manager := fst (ResourceManager.run
                        [ResourceManager.OnCleanup (VFunction (UserFn 2 false));
                         ResourceManager.ManagedFetch "/user"]
                        (ResourceManager.new, page)) in
  invocations (UserFn 2 false) (snd (DelvePluginSDK.cleanup sdk)) = 1
  /\ DelvePluginSDK.cleanup (fst (DelvePluginSDK.cleanup sdk))
     = (fst (DelvePluginSDK.cleanup sdk), [])
  /\ invocations (UserFn 2 false) (snd (ResourceManager.cleanup manager)) = 1
  /\ ResourceManager.cleanup (fst (ResourceManager.cleanup manager))
     = (fst (ResourceManager.cleanup manager), []).
Proof.
  intros page sdk manager.
  destruct cleanup_twice_runs_handlers_once as [Hsdk Hmanager].
  specialize (Hsdk [DelvePluginSDK.OnCleanup (VFunction (UserFn 1 true));
                    DelvePluginSDK.SetManagedInterval 7 1000;
                    DelvePluginSDK.OnCleanup (VFunction (UserFn 2 false));
                    DelvePluginSDK.OnCleanup (VFunction (UserFn 2 false))]
                   page ltac:(repeat constructor)).
  specialize (Hmanager [ResourceManager.OnCleanup (VFunction (UserFn 2 false));
                        ResourceManager.ManagedFetch "/user"]
                       page ltac:(repeat constructor)).
  cbv zeta in Hsdk, Hmanager.
  destruct Hsdk as (H1 & H2 & H3 & _). destruct Hmanager as (H4 & H5 & H6 & _).
  split; [apply H1, H2; right; right; now left |].
  split; [exact H3 |].
  split; [apply H4, H5; now left | exact H6].
Defined.

End CleanupFacts.

(* ===================================================================== *)
(** * Further properties of the plugin server                             *)
(* ===================================================================== *)

Module RunPluginFacts.
Import RunPlugin.
Local Open Scope string_scope.

Lemma digits_start (d : Decimal.uint) :
  d <> Decimal.Nil ->
  exists c r, NilZero.string_of_uint d = String c r
              /\ Ascii.eqb c "-" = false /\ Ascii.eqb c "+" = false.
Proof.
  destruct d; intros H; try congruence; cbn; eexists; eexists; repeat split.
Qed.

Lemma Atoi_unsigned (d : Decimal.uint) :
  d <> Decimal.Nil ->
  (MinInt <= Z.of_uint d <= MaxInt)%Z ->
  Atoi (NilZero.string_of_uint d) = Some (Z.of_uint d).
Proof.
  intros Hd [Hlo Hhi]. unfold Atoi.
  destruct (digits_start d Hd) as (c & r & E & Hm & Hp).
  rewrite E, Hm, Hp, <- E, (NilZero.usu d Hd).
  apply Z.leb_le in Hlo, Hhi. now rewrite Hlo, Hhi.
Qed.

(** What [%d] prints, [Atoi] reads back. *)
Lemma Atoi_decimalZ (n : Z) :
  (MinInt <= n <= MaxInt)%Z -> Atoi (decimalZ n) = Some n.
Proof.
  intros Hn. unfold decimalZ. destruct n as [| p | p]; [reflexivity | |].
  - cbn [Z.to_int NilZero.string_of_int].
    assert (Hv : Z.of_uint (Pos.to_uint p) = Z.pos p).
    { unfold Z.of_uint. now rewrite DecimalPos.Unsigned.of_to. }
    rewrite Atoi_unsigned; rewrite ?Hv; try assumption; try reflexivity.
    apply DecimalPos.Unsigned.to_uint_nonnil.
  - cbn [Z.to_int NilZero.string_of_int]. unfold Atoi.
    cbn [Ascii.eqb Bool.eqb].
    change (Ascii.eqb "-" "-") with true. cbv iota.
    rewrite NilZero.usu by apply DecimalPos.Unsigned.to_uint_nonnil.
    assert (Hv : Z.of_uint (Pos.to_uint p) = Z.pos p).
    { unfold Z.of_uint. now rewrite DecimalPos.Unsigned.of_to. }
    rewrite Hv. cbn [Z.opp]. destruct Hn as [Hlo Hhi].
    apply Z.leb_le in Hlo, Hhi. now rewrite Hlo, Hhi.
Qed.

Lemma HasPrefix_app (prefix rest : string) : HasPrefix (prefix ++ rest) prefix = true.
Proof.
  unfold HasPrefix. induction prefix as [| c prefix IH]; cbn.
  - now destruct rest.
  - destruct (ascii_dec c c); [exact IH | congruence].
Qed.

Lemma drop_app (prefix rest : string) : drop (String.length prefix) (prefix ++ rest) = rest.
Proof. induction prefix as [| c prefix IH]; cbn; [now destruct rest | exact IH]. Qed.

Lemma no_port_kept (args : list string) (port : Z) :
  Forall no_port args -> fold_left port_step args port = port.
Proof.
  intros H; revert port; induction H as [| arg args Ha _ IH]; intros port; cbn.
  - reflexivity.
  - rewrite IH. unfold port_step. destruct Ha as [-> | Ha]; [reflexivity |].
    destruct (HasPrefix arg "--port="); [now rewrite Ha | reflexivity].
Qed.

Lemma no_port_dec (arg : string) : {no_port arg} + {~ no_port arg}.
Proof.
  unfold no_port. destruct (HasPrefix arg "--port="); [| left; now left].
  destruct (Atoi (drop 7 arg)) as [n |]; [right | left; now right].
  intros [H | H]; discriminate.
Qed.

(** Either no argument gives a port, or there is a last one that does. *)
Lemma last_port_argument (args : list string) :
  Forall no_port args
  \/ exists before arg after n,
       args = (before ++ arg :: after)%list
       /\ Forall no_port after
       /\ HasPrefix arg "--port=" = true
       /\ Atoi (drop 7 arg) = Some n.
Proof.
  induction args as [| a args IH]; [left; constructor |].
  destruct IH as [Hall | (before & arg & after & n & -> & Hafter & Hp & Ha)].
  - destruct (no_port_dec a) as [Hno | Hyes].
    + left. now constructor.
    + right. unfold no_port in Hyes.
      destruct (HasPrefix a "--port=") eqn:Hp; [| exfalso; apply Hyes; now left].
      destruct (Atoi (drop 7 a)) as [n |] eqn:Ha; [| exfalso; apply Hyes; now right].
      exists [], a, args, n. repeat split; assumption.
  - right. exists (a :: before), arg, after, n. repeat split; assumption.
Qed.

(** The port [RunPluginServer] serves on: 50051 when no argument gives
    one, else the number of the last [--port=] argument that [Atoi]
    accepts, in whatever form it is written; arguments before it and
    invalid ones after it do not count.  Every list of arguments is of one
    of the two kinds, and every port that fits an [int] can be asked for,
    as [%d] prints it. *)
Theorem port_is_last_valid_argument (before after : list string) (arg : string) (n : Z) :
  Forall no_port after ->
  (Forall no_port before -> RunPluginServer_port (before ++ after) = 50051%Z)
  /\ (HasPrefix arg "--port=" = true ->
      Atoi (drop 7 arg) = Some n ->
      RunPluginServer_port (before ++ arg :: after) = n)
  /\ ((MinInt <= n <= MaxInt)%Z ->
      RunPluginServer_port (before ++ ("--port=" ++ decimalZ n) :: after) = n)
  /\ (forall args : list string,
        Forall no_port args
        \/ exists before' arg' after' n',
             args = (before' ++ arg' :: after')%list
             /\ Forall no_port after'
             /\ HasPrefix arg' "--port=" = true
             /\ Atoi (drop 7 arg') = Some n').
Proof.
  intros Hafter. unfold RunPluginServer_port.
  assert (Hlast : forall a m, HasPrefix a "--port=" = true -> Atoi (drop 7 a) = Some m ->
                              fold_left port_step (before ++ a :: after) 50051%Z = m).
  { intros a m Hp Ha. rewrite fold_left_app. cbn [fold_left].
    rewrite no_port_kept by assumption. unfold port_step. now rewrite Hp, Ha. }
  split; [| split; [| split]].
  - intros Hbefore. apply no_port_kept. apply Forall_app; now split.
  - apply Hlast.
  - intros Hn. apply Hlast; [apply HasPrefix_app |].
    change 7 with (String.length "--port="). now rewrite drop_app, Atoi_decimalZ.
  - apply last_port_argument.
Qed.

(** No port given; a port with a sign; a port with leading zeros; a port
    as [%d] prints it.  In each the later arguments give none. *)
Lemma port_is_last_valid_argument_witness :
  RunPluginServer_port (["--verbose"] ++ ["--port="; "--port=80x"]) = 50051%Z
  /\ RunPluginServer_port (["--port=8080"] ++ "--port=+5" :: ["--port="; "--port=80x"])
     = 5%Z
  /\ RunPluginServer_port (["--port=1"] ++ "--port=0080" :: ["--port="; "--port=80x"])
     = 80%Z
  /\ RunPluginServer_port
       (["--port=1"; "-v"] ++ ("--port=" ++ decimalZ 8080) :: ["--port="; "--port=80x"])
     = 8080%Z.
Proof.
  assert (Hafter : Forall no_port ["--port="; "--port=80x"]).
  { constructor; [right; reflexivity |]. constructor; [right; reflexivity |]. constructor. }
  split; [| split; [| split]].
  - apply (proj1 (port_is_last_valid_argument ["--verbose"] _ EmptyString 0%Z Hafter)).
    constructor; [left; reflexivity | constructor].
  - apply (proj1 (proj2 (port_is_last_valid_argument ["--port=8080"] _ "--port=+5" 5%Z Hafter)));
      reflexivity.
  - apply (proj1 (proj2 (port_is_last_valid_argument ["--port=1"] _ "--port=0080" 80%Z Hafter)));
      reflexivity.
  - apply (proj1 (proj2 (proj2
             (port_is_last_valid_argument ["--port=1"; "-v"] _ EmptyString 8080%Z Hafter)))).
    unfold MinInt, MaxInt; lia.
Defined.

End RunPluginFacts.

Module ServeFacts.
Import PluginServer ServeEvents Probe.
Local Open Scope string_scope.

Section Loop.

Context {P : Type} (listen_error : N -> error).

(** One event that is no statement of [Shutdown], on a server that
    listens: it listens after it, and what was spawned followed by what
    waits grows by the connection dialled, if any. *)
Lemma undisturbed_event (e : Event) (st : Serving P) (q : list Conn) :
  undisturbed [e] = true ->
  listener (server st) = Some (Listening q) ->
  in_loop st ->
  exists q',
    listener (server (occur listen_error e st)) = Some (Listening q')
    /\ in_loop (occur listen_error e st)
    /\ (spawned (occur listen_error e st) ++ q')%list
       = (spawned st ++ q ++ dialled [e])%list.
Proof.
  intros He Hl Hpc.
  destruct st as [[p l d] c sp out]; cbn in Hl; subst l.
  destruct e; cbn in He; try discriminate; cbn -[app].
  - (* Step *)
    destruct c as [port | | | err]; cbn -[app].
    + exfalso; now apply (Hpc port).
    + exists q. destruct d; cbn -[app];
        (split; [reflexivity | split; [intros port; discriminate | now rewrite app_nil_r]]).
    + destruct q as [| conn q]; cbn -[app].
      * exists []. split; [reflexivity | split; [exact Hpc | now rewrite !app_nil_r]].
      * exists q. split; [reflexivity | split; [intros port; discriminate |]].
        cbn. now rewrite <- !app_assoc, app_nil_r.
    + exists q. split; [reflexivity | split; [exact Hpc | now rewrite app_nil_r]].
  - (* Dial *)
    exists (q ++ [conn])%list.
    split; [reflexivity | split; [exact Hpc | cbn; rewrite ?app_nil_r; reflexivity]].
Qed.

(** While [Shutdown] is not called, no connection is lost, served twice
    or served out of turn: the connections handed to [handleConnection]
    followed by those that still wait are the ones that were there, then
    the ones dialled, in the order they were dialled. *)
Theorem connections_served_in_dial_order (es : list Event) (st : Serving P)
    (q : list Conn) :
  undisturbed es = true ->
  listener (server st) = Some (Listening q) ->
  (forall port, pc st <> PcListen port) ->
  let st' := occur_all listen_error es st in
  (spawned st' ++ backlog st')%list = (spawned st ++ q ++ dialled es)%list.
Proof.
  revert st q; induction es as [| e es IH]; intros st q Hes Hl Hpc; cbn zeta.
  - cbn. unfold backlog. now rewrite Hl, app_nil_r.
  - cbn in Hes. apply andb_true_iff in Hes as [He Hes].
    assert (He1 : undisturbed [e] = true) by (cbn; now rewrite He).
    destruct (undisturbed_event e st q He1 Hl Hpc) as (q' & Hl' & Hpc' & Hq).
    change (occur_all listen_error (e :: es) st)
      with (occur_all listen_error es (occur listen_error e st)).
    specialize (IH _ q' Hes Hl' Hpc'). cbn zeta in IH. rewrite IH.
    assert (Hd : dialled (e :: es) = (dialled [e] ++ dialled es)%list)
      by (cbn; now rewrite app_nil_r).
    rewrite app_assoc, Hq, Hd. now rewrite <- !app_assoc.
Qed.

Lemma listened_event (e : Event) (st : Serving P) :
  listened st -> listened (occur listen_error e st).
Proof.
  unfold listened. destruct st as [[p l d] c sp out]; cbn.
  intros [-> | [-> | ->]]; destruct e; cbn; auto.
  - destruct d; cbn; auto.
  - destruct l as [[[| conn q] |] |]; cbn; auto. destruct d; cbn; auto.
Qed.

Lemma unbound_event (e : Event) (st : Serving P) :
  (forall port, pc st <> PcListen port) \/ e <> Step ->
  unbound st -> unbound (occur listen_error e st).
Proof.
  unfold unbound. destruct st as [[p l d] c sp out]; cbn.
  intros Hpc (-> & -> & ->). destruct e; cbn; auto.
  destruct c as [port | | | err]; cbn; auto.
  - destruct Hpc as [Hpc | Hpc]; [now destruct (Hpc port) | congruence].
  - destruct d; cbn; auto.
Qed.

(** [Serve] returns an error only when [net.Listen] failed: the error
    names the port and carries the text of [Listen]'s error, and then
    nothing was bound, printed or served.  Whatever happens around it, a
    [Serve] that listens returns nil or not at all. *)
Theorem Serve_fails_only_at_Listen (p : P) (port : N) (es : list Event) (msg : string) :
  pc (occur_all listen_error es (Serve p port)) = PcReturned (Some msg) ->
  exists err,
    listen_error port = Some err
    /\ msg = "failed to listen on port " ++ decimal port ++ ": " ++ err
    /\ unbound (occur_all listen_error es (Serve p port)).
Proof.
  set (failed := fun st : Serving P => exists err,
         listen_error port = Some err
         /\ pc st = PcReturned
                      (Some ("failed to listen on port " ++ decimal port ++ ": " ++ err))
         /\ unbound st).
  assert (Hinv : forall es st,
             (pc st = PcListen port /\ unbound st) \/ failed st \/ listened st ->
             let st' := occur_all listen_error es st in
             (pc st' = PcListen port /\ unbound st') \/ failed st' \/ listened st').
  { clear es. induction es as [| e es IH]; intros st H; [exact H |].
    change (occur_all listen_error (e :: es) st)
      with (occur_all listen_error es (occur listen_error e st)).
    apply IH. destruct H as [[Hpc Hu] | [(err & He & Hpc & Hu) | Hl]].
    - destruct e.
      + destruct st as [[p0 l d] c sp out]; cbn in Hpc; subst c.
        destruct Hu as (Hl & Hs & Ho); cbn in Hl, Hs, Ho; subst.
        cbn. destruct (listen_error port) as [err |] eqn:E.
        * right; left. exists err. repeat split; auto.
        * right; right. left; reflexivity.
      + left. split; [exact Hpc |]. apply unbound_event; [right; discriminate | exact Hu].
      + left. split; [exact Hpc |]. apply unbound_event; [right; discriminate | exact Hu].
      + left. split; [exact Hpc |]. apply unbound_event; [right; discriminate | exact Hu].
    - right; left. exists err. split; [exact He |].
      assert (Hno : forall port0, pc st <> PcListen port0)
        by (intros port0; rewrite Hpc; discriminate).
      split; [| apply unbound_event; auto].
      destruct st as [[p0 l d] c sp out]; cbn in Hpc; subst c. destruct e; reflexivity.
    - right; right. now apply listened_event. }
  intros Hret.
  destruct (Hinv es (Serve p port)) as [[Hpc _] | [(err & He & Hpc & Hu) | Hl]].
  - left. split; [reflexivity | repeat split].
  - rewrite Hpc in Hret; discriminate.
  - exists err. rewrite Hpc in Hret. injection Hret as <-. auto.
  - destruct Hl as [Hl | [Hl | Hl]]; rewrite Hl in Hret; discriminate.
Qed.

(** Once the listener is closed, [Serve] hands no further connection to
    [handleConnection], whoever dials and however long it runs, and the
    listener stays closed. *)
Theorem closed_listener_serves_nobody (es : list Event) (st : Serving P) :
  listener (server st) = Some ListenerClosed ->
  (forall port, pc st <> PcListen port) ->
  let st' := occur_all listen_error es st in
  spawned st' = spawned st /\ listener (server st') = Some ListenerClosed.
Proof.
  revert st; induction es as [| e es IH]; intros st Hl Hpc; cbn zeta; [now split |].
  change (occur_all listen_error (e :: es) st)
    with (occur_all listen_error es (occur listen_error e st)).
  assert (H : spawned (occur listen_error e st) = spawned st
              /\ listener (server (occur listen_error e st)) = Some ListenerClosed
              /\ forall port, pc (occur listen_error e st) <> PcListen port).
  { destruct st as [[p l d] c sp out]; cbn in Hl, Hpc; subst l.
    destruct e; cbn; auto.
    destruct c as [port | | | err]; cbn.
    - now destruct (Hpc port).
    - destruct d; cbn; repeat split; intros port; discriminate.
    - destruct d; cbn; repeat split; intros port; discriminate.
    - repeat split; intros port; discriminate. }
  destruct H as (Hs & Hl' & Hpc').
  destruct (IH _ Hl' Hpc') as [IHs IHl]. cbn zeta in *. split; congruence.
Qed.

(** A [Shutdown] that comes before [Serve] does not keep it from binding
    the port: [Serve] listens, returns nil at its first [select] without
    accepting, and leaves the listener open. *)
Theorem Shutdown_before_Serve_leaves_listener_open (p : P) (port : N) :
  listen_error port = None ->
  let st := Serve_run listen_error 2
              {| server := Shutdown (NewPluginServer p); pc := PcListen port;
                 spawned := []; stdout := [] |} in
  pc st = PcReturned None
  /\ listener (server st) = Some (Listening [])
  /\ spawned st = [].
Proof.
  intros H. cbn. rewrite H. cbn. repeat split.
Qed.

End Loop.

Lemma connections_served_in_dial_order_witness :
  let st := Serve_run (fun _ => None) 2 (Serve Uninitialized 50051%N) in
  let st' := occur_all (fun _ => None)
               [Dial ["a"]; Dial ["b"]; Step; Step; Dial ["c"]; Step] st in
  (spawned st' ++ backlog st')%list = [["a"]; ["b"]; ["c"]].
Proof.
  intros st st'.
  exact (connections_served_in_dial_order (fun _ => None)
           [Dial ["a"]; Dial ["b"]; Step; Step; Dial ["c"]; Step] st []
           eq_refl eq_refl ltac:(intros port; discriminate)).
Defined.

Lemma Serve_fails_only_at_Listen_witness :
  exists err,
    (fun port : N => if N.eqb port 80 then Some "permission denied" else None) 80%N = Some err
    /\ "failed to listen on port 80: permission denied"
       = "failed to listen on port " ++ decimal 80 ++ ": " ++ err
    /\ unbound (occur_all
                  (fun port : N => if N.eqb port 80 then Some "permission denied" else None)
                  [Dial ["a"]; Step; Cancel; Step] (Serve Uninitialized 80%N)).
Proof.
  apply (Serve_fails_only_at_Listen
           (fun port : N => if N.eqb port 80 then Some "permission denied" else None)
           Uninitialized 80%N [Dial ["a"]; Step; Cancel; Step]).
  reflexivity.
Defined.

Lemma closed_listener_serves_nobody_witness :
  let st := on_server Shutdown (Serve_run (fun _ => None) 2 (Serve Uninitialized 50051%N)) in
  spawned (occur_all (fun _ => None) [Dial ["a"]; Step; Step; Dial ["b"]; Step] st) = [].
Proof.
  intros st.
  exact (proj1 (closed_listener_serves_nobody (fun _ => None)
                  [Dial ["a"]; Step; Step; Dial ["b"]; Step] st eq_refl
                  ltac:(intros port; discriminate))).
Defined.

Lemma Shutdown_before_Serve_leaves_listener_open_witness :
  listener (server (Serve_run (fun _ => None) 2
                      {| server := Shutdown (NewPluginServer Uninitialized);
                         pc := PcListen 50051%N; spawned := []; stdout := [] |}))
  = Some (Listening []).
Proof.
  exact (proj1 (proj2 (Shutdown_before_Serve_leaves_listener_open (fun _ => None)
                         Uninitialized 50051%N eq_refl))).
Defined.

End ServeFacts.

Module DispatcherFacts.
Import Json PluginServer Probe PluginServerFacts Table.
Local Open Scope string_scope.

Section Dispatch.

Context {P : Type} (api : PluginAPI P) (codec : Codec).

Lemma not_in_cons_eqb (x y : string) (l : list string) :
  ~ In x (y :: l) -> String.eqb x y = false /\ ~ In x l.
Proof.
  intros H. split.
  - apply String.eqb_neq. intros ->. apply H; now left.
  - intros Hin. apply H; now right.
Qed.

(** A method outside the table is answered [unknown method: <name>];
    nothing is called on the plugin and the server is left as it was. *)
Theorem unknown_method_rejected (req : Request) (s : Server P) :
  ~ In (Method req) methods ->
  handleRequest api codec req s = (failure ("unknown method: " ++ Method req), s, []).
Proof.
  intros H. unfold handleRequest, methods in *.
  repeat (apply not_in_cons_eqb in H as [-> H]).
  reflexivity.
Qed.

(** What one request costs: at most one call on the plugin, and the
    listener and the context of the server are not touched. *)
Lemma handleRequest_footprint (req : Request) (s : Server P) :
  let r := handleRequest api codec req s in
  length (calls r) <= 1
  /\ listener (after r) = listener s
  /\ ctx_done (after r) = ctx_done s.
Proof.
  cbn zeta. unfold handleRequest.
  repeat match goal with
         | |- context [if ?b then _ else _] => destruct b
         end;
    unfold handleHealthCheck, handleExecuteAction, handleGetInfo, handleInitialize,
      handleStart, handleStop, bind, invoke, ctx, ret, calls, after.
  - destruct (HealthCheck api _ (plugin s)) as [[text |] p']; cbn; auto.
  - destruct (HandleRequest api _ _ _ (plugin s)) as [[result [text |]] p']; cbn; auto.
  - destruct (GetInfo api (plugin s)) as [info p']; cbn; auto.
  - destruct (lookup "config" (Data req)) as [[| | | | | config] |]; cbn; auto.
    destruct (Initialize api config (plugin s)) as [[text |] p']; cbn; auto.
  - cbn. destruct (Start api (ctx_done s) (plugin s)) as [[text |] p']; cbn; auto.
  - destruct (Stop api (plugin s)) as [[text |] p']; cbn; auto.
  - cbn; auto.
Qed.

(** Serving a connection never touches the listener or the context of
    the server, and it calls the plugin at most once for each Response it
    writes. *)
Theorem handleConnection_footprint (lines : Conn) (s : Server P) :
  let r := handleConnection api codec lines s in
  listener (after r) = listener s
  /\ ctx_done (after r) = ctx_done s
  /\ length (calls r) <= length (value r).
Proof.
  revert s; induction lines as [| line lines IH]; intros s; cbn zeta.
  - cbn. auto.
  - rewrite handleConnection_cons; cbn zeta.
    assert (Hline : let r1 := handleLine api codec line s in
                    listener (after r1) = listener s
                    /\ ctx_done (after r1) = ctx_done s
                    /\ length (calls r1) <= length (value r1)).
    { cbn zeta. unfold handleLine.
      destruct (String.eqb line EmptyString); [cbn; auto |].
      destruct (UnmarshalRequest codec line) as [req | err]; [| cbn; auto].
      rewrite bind_run.
      destruct (handleRequest_footprint req s) as (Hc & Hl & Hd).
      unfold value, after, calls in *; cbn [fst snd ret length].
      rewrite app_nil_r. auto. }
    cbn zeta in Hline. destruct Hline as (Hl1 & Hd1 & Hc1).
    destruct (IH (after (handleLine api codec line s))) as (Hl2 & Hd2 & Hc2).
    cbn zeta in *. unfold value, after, calls in *; cbn [fst snd] in *.
    rewrite !length_app. repeat split; try congruence. lia.
Qed.

(** health_check and get_info never answer [success:false], whatever the
    plugin does and whatever the request holds: each calls the plugin once
    ([HealthCheck] with the empty name when [check_name] is missing or not
    a string), and a health check answers with [healthy] and [message] and
    nothing else. *)
Theorem queries_never_fail (req : Request) (s : Server P) :
  let r := handleRequest api codec req s in
  (Method req = "health_check" ->
   Success (value r) = true /\ Error (value r) = EmptyString
   /\ map fst (Result (value r)) = ["healthy"; "message"]
   /\ calls r = [CallHealthCheck (string_at "check_name" (Data req))])
  /\ (Method req = "get_info" ->
      Success (value r) = true /\ Error (value r) = EmptyString
      /\ Result (value r) = fst (GetInfo api (plugin s))
      /\ calls r = [CallGetInfo]).
Proof.
  cbn zeta. split; intros H; unfold handleRequest; rewrite H;
    cbn [String.eqb Ascii.eqb Bool.eqb].
  - unfold handleHealthCheck, bind, invoke, ret, value, calls.
    destruct (HealthCheck api _ (plugin s)) as [[text |] p']; cbn; auto.
  - unfold handleGetInfo, bind, invoke, ret, value, calls.
    destruct (GetInfo api (plugin s)) as [info p']; cbn; auto.
Qed.

(** initialize with a mapping under [config] and stop are forwarded
    whatever was called before: [Initialize] gets that mapping, [Stop] is
    called, each once; the Response is [success:true] when the plugin
    returns nil and carries its error text unchanged otherwise. *)
Theorem initialize_and_stop_are_forwarded (req : Request) (s : Server P) :
  (forall config,
      Method req = "initialize" ->
      lookup "config" (Data req) = Some (JObj config) ->
      let r := Initialize api config (plugin s) in
      handleRequest api codec req s
      = (match fst r with Some text => failure text | None => success [] end,
         {| plugin := snd r; listener := listener s; ctx_done := ctx_done s |},
         [CallInitialize config]))
  /\ (Method req = "stop" ->
      let r := Stop api (plugin s) in
      handleRequest api codec req s
      = (match fst r with Some text => failure text | None => success [] end,
         {| plugin := snd r; listener := listener s; ctx_done := ctx_done s |},
         [CallStop])).
Proof.
  split.
  - intros config H Hc r. unfold handleRequest. rewrite H.
    cbn [String.eqb Ascii.eqb Bool.eqb].
    unfold handleInitialize. rewrite Hc. unfold bind, invoke, ret. fold r.
    destruct r as [[text |] p']; reflexivity.
  - intros H r. unfold handleRequest. rewrite H.
    cbn [String.eqb Ascii.eqb Bool.eqb].
    unfold handleStop, bind, invoke, ret. fold r.
    destruct r as [[text |] p']; reflexivity.
Qed.

(** Lines handled one after the other: serving [before ++ rest] is
    serving [before] and then [rest] on the server that [before] left;
    Responses and plugin calls follow in that order. *)
Theorem handleConnection_sequential (before rest : Conn) (s : Server P) :
  let r1 := handleConnection api codec before s in
  let r2 := handleConnection api codec rest (after r1) in
  handleConnection api codec (before ++ rest)%list s
  = ((value r1 ++ value r2)%list, after r2, (calls r1 ++ calls r2)%list).
Proof. apply handleConnection_app. Qed.

(** A line that is well-formed JSON but no object: [null] decodes to the
    empty request and is answered as the unknown method with the empty
    name; a number, string, boolean or array is answered with a decoding
    error.  Neither reaches the plugin. *)
Theorem non_object_line_is_answered (line : string) (t : json) (s : Server P) :
  line <> EmptyString ->
  Parse codec line = inl t ->
  (forall members, t <> JObj members) ->
  handleLine api codec line s
  = ([failure
        (match t with
         | JNull => "unknown method: "
         | _ => "invalid request format: json: cannot unmarshal " ++ kind t
                  ++ " into Go value of type main.Request"
         end)], s, []).
Proof.
  intros Hne Hp Hobj. unfold handleLine, UnmarshalRequest.
  apply String.eqb_neq in Hne. rewrite Hne, Hp.
  destruct t; try reflexivity.
  exfalso. now apply (Hobj members).
Qed.

End Dispatch.

Lemma unknown_method_rejected_witness :
  handleRequest (failing "unreachable") go
    {| Method := "restart"; Action := EmptyString; Data := [] |} fresh
  = (failure "unknown method: restart", fresh, []).
Proof.
  apply (unknown_method_rejected (failing "unreachable") go
           {| Method := "restart"; Action := EmptyString; Data := [] |} fresh).
  cbn. intros [H | [H | [H | [H | [H | [H | []]]]]]]; discriminate H.
Defined.

Lemma queries_never_fail_witness :
  let r := handleRequest (failing "unreachable") go
             {| Method := "health_check"; Action := EmptyString;
                Data := [("check_name", JNum "7")] |} fresh in
  Success (value r) = true /\ Error (value r) = EmptyString
  /\ map fst (Result (value r)) = ["healthy"; "message"]
  /\ calls r = [CallHealthCheck EmptyString].
Proof.
  exact (proj1 (queries_never_fail (failing "unreachable") go
                  {| Method := "health_check"; Action := EmptyString;
                     Data := [("check_name", JNum "7")] |} fresh) eq_refl).
Defined.

Lemma initialize_and_stop_are_forwarded_witness :
  handleRequest (failing "unreachable") go
    {| Method := "initialize"; Action := EmptyString;
       Data := [("config", JObj [("a", JStr "x")])] |} fresh
  = (success [], {| plugin := Initialized; listener := None; ctx_done := false |},
     [CallInitialize [("a", JStr "x")]])
  /\ handleRequest (failing "unreachable") go
       {| Method := "stop"; Action := EmptyString; Data := [] |} fresh
     = (success [], {| plugin := Stopped; listener := None; ctx_done := false |},
        [CallStop]).
Proof.
  split.
  - exact (proj1 (initialize_and_stop_are_forwarded (failing "unreachable") go
                    {| Method := "initialize"; Action := EmptyString;
                       Data := [("config", JObj [("a", JStr "x")])] |} fresh)
                 [("a", JStr "x")] eq_refl eq_refl).
  - exact (proj2 (initialize_and_stop_are_forwarded (failing "unreachable") go
                    {| Method := "stop"; Action := EmptyString; Data := [] |} fresh)
                 eq_refl).
Defined.

Lemma non_object_line_is_answered_witness :
  handleLine (failing "unreachable") go "[1, 2]" fresh
  = ([failure ("invalid request format: json: cannot unmarshal array"
                 ++ " into Go value of type main.Request")], fresh, []).
Proof.
  apply (non_object_line_is_answered (failing "unreachable") go "[1, 2]"
           (JArr [JNum "1"; JNum "2"]) fresh).
  - discriminate.
  - reflexivity.
  - discriminate.
Defined.

End DispatcherFacts.

(* ===================================================================== *)
(** * Further properties of the resource managers                         *)
(* ===================================================================== *)

Module ObservationFacts.
Import Browser BrowserFacts Observations.

Section Collect.

Context {A : Type} (pick : Effect -> option A).

Lemma collect_app (t1 t2 : list Effect) :
  collect pick (t1 ++ t2) = collect pick t1 ++ collect pick t2.
Proof. unfold collect. apply flat_map_app. Qed.

Lemma collect_none (t : list Effect) :
  Forall (fun e => pick e = None) t -> collect pick t = [].
Proof.
  unfold collect. induction 1 as [| e t He _ IH]; cbn; [reflexivity |].
  now rewrite He.
Qed.

Lemma collect_map_none {X : Type} (g : X -> Effect) (l : list X) :
  (forall x, pick (g x) = None) -> collect pick (map g l) = [].
Proof.
  intros H. apply collect_none. apply Forall_forall. intros e He.
  apply in_map_iff in He as [x [<- _]]. apply H.
Qed.


End Collect.

Lemma collect_listeners {A : Type} (pick : Effect -> option A)
    (m : list (Target * list Binding)) :
  (forall target ev h o, pick (RemoveEventListener target ev h o) = None) ->
  collect pick (remove_all_listeners m) = [].
Proof.
  intros H. apply collect_none. apply Forall_forall. intros e He.
  unfold remove_all_listeners in He.
  apply in_flat_map in He as [tl [_ He]].
  apply in_map_iff in He as [l [<- _]]. apply H.
Qed.


(** Calling the handlers clears no timer and closes no socket. *)
Lemma handlers_collect_none {A : Type} (pick : Effect -> option A)
    (warning : string) (fs : list Fn) (b : Page) :
  (forall f, pick (Called f) = None) ->
  (forall text f, pick (ConsoleWarn text f) = None) ->
  (forall c, pick (Abort c) = None) ->
  collect pick (snd (call_handlers warning fs b)) = [].
Proof.
  intros Hc Hw Ha. revert b; induction fs as [| f fs IH]; intros b; [reflexivity |].
  cbn [call_handlers].
  destruct (call_handler warning f b) as [b1 t1] eqn:E1.
  specialize (IH b1). destruct (call_handlers warning fs b1) as [b2 t2].
  cbn [snd] in *. rewrite collect_app, IH, app_nil_r.
  destruct f as [i [|] | c]; cbn in E1; injection E1 as <- <-;
    unfold collect; cbn; rewrite ?Hc, ?Hw, ?Ha; reflexivity.
Qed.

End ObservationFacts.

Module DelvePluginSDKMore.
Import Browser BrowserFacts Observations ObservationFacts DelvePluginSDK DelvePluginSDKFacts.
Local Open Scope string_scope.

(** What the first [cleanup] does, one registry after the other. *)
Lemma cleanup_trace (s : SDK) (b : Page) :
  isShuttingDown s = false ->
  snd (cleanup (s, b))
  = ([ConsoleLog "[Delve SDK] Starting plugin cleanup"]
       ++ map ClearInterval (intervals s)
       ++ map ClearTimeout (timeouts s)
       ++ remove_all_listeners (eventListeners s)
       ++ snd (close_sockets (websockets s) b)
       ++ snd (call_handlers "[Delve SDK] Error in cleanup handler:" (cleanupHandlers s)
                 (fst (close_sockets (websockets s) b)))
       ++ [ConsoleLog "[Delve SDK] Plugin cleanup completed"])%list.
Proof.
  intros H. unfold cleanup. rewrite H. cbn [cleanupHandlers isShuttingDown intervals
    timeouts eventListeners websockets with_isShuttingDown with_intervals with_timeouts
    with_eventListeners with_websockets with_cleanupHandlers].
  destruct (close_sockets (websockets s) b) as [b1 ts]; cbn [fst snd].
  destruct (call_handlers _ (cleanupHandlers s) b1) as [b2 th]; reflexivity.
Qed.


(** Sockets met once each: those that are open or connecting are closed,
    with the code of a normal closure. *)
Lemma closed_sockets (wss : list Socket) (b b' : Page) :
  NoDup wss ->
  (forall ws, In ws wss -> readyState b' ws = readyState b ws) ->
  collect closed_socket (snd (close_sockets wss b'))
  = map (fun ws => (ws, 1000, "Plugin shutting down")) (filter (closable b) wss).
Proof.
  intros Hnd; revert b'; induction Hnd as [| ws wss Hnot Hnd IH]; intros b' Hb;
    [reflexivity |].
  cbn [close_sockets filter]. unfold closable at 1.
  rewrite <- (Hb ws (or_introl eq_refl)).
  assert (Hrest : forall b1, (forall x, x <> ws -> readyState b1 x = readyState b' x) ->
                             forall x, In x wss -> readyState b1 x = readyState b x).
  { intros b1 H1 x Hx. rewrite H1; [apply Hb; now right | intros ->; contradiction]. }
  assert (Hset : forall x, x <> ws ->
                           readyState (set_readyState ws CLOSING b') x = readyState b' x).
  { intros x Hx. cbn. apply Nat.eqb_neq in Hx. now rewrite Hx. }
  destruct (readyState b' ws).
  - specialize (IH _ (Hrest _ Hset)).
    destruct (close_sockets wss _); cbn [snd map] in *. unfold collect in *; cbn.
    now rewrite IH.
  - specialize (IH _ (Hrest _ Hset)).
    destruct (close_sockets wss _); cbn [snd map] in *. unfold collect in *; cbn.
    now rewrite IH.
  - apply IH. intros x Hx. apply Hb; now right.
  - apply IH. intros x Hx. apply Hb; now right.
Qed.

Lemma NoDup_delete {A : Type} (eqb : A -> A -> bool) (x : A) (l : list A) :
  NoDup l -> NoDup (delete eqb x l).
Proof. intros H. unfold delete. now apply NoDup_filter. Qed.

Lemma not_In_delete (x : nat) (l : list nat) : ~ In x (delete Nat.eqb x l).
Proof.
  unfold delete. intros H. apply filter_In in H as [_ H].
  now rewrite Nat.eqb_refl in H.
Qed.

(** In every manager that a run of operations makes, the sockets of the
    registry are met once each and carry the manager's [close] listener. *)
Lemma sockets_invariant (ops : list Op) (w : World) :
  NoDup (websockets (fst w)) ->
  incl (websockets (fst w)) (close_listeners (snd w)) ->
  let w' := fst (run ops w) in
  NoDup (websockets (fst w')) /\ incl (websockets (fst w')) (close_listeners (snd w')).
Proof.
  revert w; induction ops as [| op ops IH]; intros w Hnd Hin; [now split |].
  rewrite run_cons; cbn [fst]. apply IH; destruct w as [s b]; cbn [fst snd] in *.
  - destruct op; cbn; try assumption.
    + destruct v; assumption.
    + now apply (NoDup_add Nat.eqb Nat_eqb_eq).
    + destruct (get target (eventListeners s)) as [ls |]; [| assumption].
      destruct (splice_first ev h ls); assumption.
    + destruct (isShuttingDown s); [assumption |].
      destruct (close_sockets _ _), (call_handlers _ _ _); cbn. constructor.
    + destruct (has Nat.eqb ws (close_listeners b)); cbn; [| assumption].
      now apply NoDup_delete.
  - destruct op; cbn; try assumption.
    + destruct v; assumption.
    + intros x Hx. apply (In_add Nat.eqb Nat_eqb_eq) in Hx as [-> | Hx];
        apply in_or_app; [right; now left | left; now apply Hin].
    + destruct (get target (eventListeners s)) as [ls |]; [| assumption].
      destruct (splice_first ev h ls); assumption.
    + destruct (isShuttingDown s); [assumption |].
      destruct (close_sockets _ _), (call_handlers _ _ _); cbn. intros x [].
    + destruct (has Nat.eqb ws (close_listeners b)); cbn; [| assumption].
      intros x Hx. unfold delete in Hx. apply filter_In in Hx as [Hx _]. now apply Hin.
Qed.



Lemma run_app (ops1 ops2 : list Op) (w : World) :
  run (ops1 ++ ops2) w
  = (fst (run ops2 (fst (run ops1 w))),
     (snd (run ops1 w) ++ snd (run ops2 (fst (run ops1 w))))%list).
Proof.
  revert w; induction ops1 as [| op ops1 IH]; intros w.
  - cbn. now destruct (run ops2 w).
  - rewrite <- app_comm_cons, !run_cons, IH. cbn [fst snd]. now rewrite app_assoc.
Qed.

Lemma In_collect {A : Type} (pick : Effect -> option A) (t : list Effect) (a : A) :
  In a (collect pick t) <-> exists e, In e t /\ pick e = Some a.
Proof.
  unfold collect. rewrite in_flat_map. split; intros [e [He H]]; exists e; split; auto.
  - destruct (pick e); [destruct H as [-> | []]; reflexivity | contradiction].
  - rewrite H. now left.
Qed.

Lemma socket_closes_of_cleanup (ops : list Op) (page : Page) :
  Forall (fun op => is_cleanup op = false) ops ->
  let w := fst (run ops (new, page)) in
  collect closed_socket (snd (cleanup w))
  = map (fun ws => (ws, 1000, "Plugin shutting down"))
        (filter (closable (snd w)) (websockets (fst w))).
Proof.
  intros Hops w.
  destruct (run_before_cleanup ops (new, page) Hops (NoDup_nil _)) as (Hl & _ & _).
  destruct (sockets_invariant ops (new, page) (NoDup_nil _) (incl_nil_l _)) as [Hnd _].
  fold w in Hl, Hnd. cbn in Hl. destruct w as [s b]; cbn [fst snd] in *.
  rewrite (cleanup_trace s b Hl), !collect_app.
  rewrite (collect_map_none closed_socket ClearInterval) by reflexivity.
  rewrite (collect_map_none closed_socket ClearTimeout) by reflexivity.
  rewrite (collect_listeners closed_socket) by reflexivity.
  rewrite (handlers_collect_none closed_socket) by reflexivity.
  rewrite (closed_sockets (websockets s) b b Hnd) by reflexivity.
  cbn. now rewrite app_nil_r.
Qed.


(** A socket whose [close] event fired has left the registry, whatever
    was done to the manager before, and a [cleanup] after it does not
    close it. *)
Theorem closed_socket_is_forgotten (ops : list Op) (page : Page) (ws : Socket) :
  let w := fst (run (ops ++ [CloseEvent ws]) (new, page)) in
  ~ In ws (websockets (fst w))
  /\ forall code reason, ~ In (SocketClose ws code reason) (snd (cleanup w)).
Proof.
  cbn zeta. rewrite run_app; cbn [fst].
  destruct (sockets_invariant ops (new, page) (NoDup_nil _) (incl_nil_l _)) as [Hnd Hin].
  destruct (fst (run ops (new, page))) as [s b] eqn:E; cbn [fst snd] in *.
  assert (Hgone : ~ In ws (websockets (fst (fst (run [CloseEvent ws] (s, b)))))).
  { cbn. destruct (has Nat.eqb ws (close_listeners b)) eqn:Eh; cbn.
    - apply not_In_delete.
    - intros Hws. apply Hin in Hws. apply (has_In Nat.eqb Nat_eqb_eq) in Hws. congruence. }
  split; [exact Hgone |].
  intros code reason Hc.
  assert (Hnd' : NoDup (websockets (fst (fst (run [CloseEvent ws] (s, b)))))).
  { cbn. destruct (has Nat.eqb ws (close_listeners b)); cbn; [now apply NoDup_delete | exact Hnd]. }
  destruct (fst (run [CloseEvent ws] (s, b))) as [s1 b1]; cbn [fst snd] in *.
  destruct (isShuttingDown s1) eqn:El.
  - unfold cleanup in Hc. rewrite El in Hc. exact Hc.
  - assert (Hc' : In (ws, code, reason) (collect closed_socket (snd (cleanup (s1, b1)))))
      by (apply In_collect; eexists; split; [exact Hc | reflexivity]).
    rewrite (cleanup_trace s1 b1 El), !collect_app in Hc'.
    rewrite (collect_map_none closed_socket ClearInterval) in Hc' by reflexivity.
    rewrite (collect_map_none closed_socket ClearTimeout) in Hc' by reflexivity.
    rewrite (collect_listeners closed_socket) in Hc' by reflexivity.
    rewrite (handlers_collect_none closed_socket) in Hc' by reflexivity.
    rewrite (closed_sockets (websockets s1) b1 b1 Hnd') in Hc' by reflexivity.
    cbn in Hc'. rewrite app_nil_r in Hc'.
    apply in_map_iff in Hc' as [x [Hx Hf]]. injection Hx as -> _ _.
    apply filter_In in Hf as [Hf _]. contradiction.
Qed.


Lemma closed_socket_is_forgotten_witness :
  let page := {| next_timer := 1; next_controller := 1;
                 readyState := fun _ => OPEN; aborted := fun _ => false;
                 close_listeners := [] |} in
  let w := fst (run ([AddManagedWebSocket 4; AddManagedWebSocket 5] ++ [CloseEvent 4])
                  (new, page)) in
  ~ In 4 (websockets (fst w))
  /\ forall code reason, ~ In (SocketClose 4 code reason) (snd (cleanup w)).
Proof.
  intros page w.
  exact (closed_socket_is_forgotten [AddManagedWebSocket 4; AddManagedWebSocket 5] page 4).
Defined.



(** ** Event listeners *)

Lemma get_None_remove {V : Type} (k : Target) (m : list (Target * V)) :
  get k m = None -> remove k m = m.
Proof.
  unfold remove. induction m as [| [k' v] m IH]; cbn; [reflexivity |].
  destruct (Nat.eqb k k') eqn:E; [discriminate |]. cbn. intros H. now rewrite IH.
Qed.

Lemma get_None_set {V : Type} (k : Target) (v : V) (m : list (Target * V)) :
  get k m = None -> set k v m = (m ++ [(k, v)])%list.
Proof.
  induction m as [| [k' v'] m IH]; cbn; [reflexivity |].
  destruct (Nat.eqb k k') eqn:E; [discriminate |]. intros H. now rewrite IH.
Qed.

Lemma remove_app {V : Type} (k : Target) (m1 m2 : list (Target * V)) :
  remove k (m1 ++ m2) = (remove k m1 ++ remove k m2)%list.
Proof. unfold remove. apply filter_app. Qed.

Lemma set_set {V : Type} (k : Target) (v v' : V) (m : list (Target * V)) :
  set k v (set k v' m) = set k v m.
Proof.
  induction m as [| [k' v0] m IH]; cbn.
  - now rewrite Nat.eqb_refl.
  - destruct (Nat.eqb k k') eqn:E; cbn; [now rewrite Nat.eqb_refl | now rewrite E, IH].
Qed.

Lemma set_same {V : Type} (k : Target) (v : V) (m : list (Target * V)) :
  get k m = Some v -> set k v m = m.
Proof.
  induction m as [| [k' v'] m IH]; cbn; [discriminate |].
  destruct (Nat.eqb_spec k k') as [-> | Hne].
  - now intros [= ->].
  - intros H. now rewrite IH.
Qed.

Lemma splice_last (ev : string) (h : Callback) (o : Options) (ls : list Binding) :
  (forall l, In l ls -> event l = ev -> handler l <> h) ->
  splice_first ev h (ls ++ [{| event := ev; handler := h; options := o |}]) = ls.
Proof.
  induction ls as [| l ls IH]; intros Hno; cbn.
  - now rewrite String.eqb_refl, Nat.eqb_refl.
  - destruct (String.eqb_spec (event l) ev) as [He | He]; cbn.
    + destruct (Nat.eqb_spec (handler l) h) as [Hh | Hh].
      * exfalso. now apply (Hno l (or_introl eq_refl) He).
      * f_equal. apply IH. intros l' Hl'. apply Hno. now right.
    + f_equal. apply IH. intros l' Hl'. apply Hno. now right.
Qed.

(** [removeManagedEventListener] undoes, in the manager, what
    [addManagedEventListener] did: when the target holds no earlier
    binding of the same event and handler, adding a listener and removing
    it leaves the registries as they were, the entry of the target
    included.  The page is asked to add the listener with its options and
    to remove it without them; the manager has forgotten the binding
    either way, so a [cleanup] after it asks the page for exactly what it
    would have asked without the two calls. *)
Theorem remove_undoes_add (s : SDK) (b : Page) (target : Target) (ev : string)
    (h : Callback) (o : Options) :
  (forall ls,
      get target (eventListeners s) = Some ls ->
      ls <> [] /\ forall l, In l ls -> event l = ev -> handler l <> h) ->
  let added := addManagedEventListener target ev h o (s, b) in
  let removed := removeManagedEventListener target ev h (fst added) in
  snd added = [AddEventListener target ev h o]
  /\ fst (fst removed) = s
  /\ snd removed = [RemoveEventListener target ev h None]
  /\ forall b', snd (cleanup (fst (fst removed), b')) = snd (cleanup (s, b')).
Proof.
  intros Hno. cbn zeta.
  assert (Hs : fst (fst (removeManagedEventListener target ev h
                           (fst (addManagedEventListener target ev h o (s, b))))) = s);
    [| split; [reflexivity |]; split; [exact Hs |]; split; [reflexivity |];
       intros b'; now rewrite Hs].
  cbn [addManagedEventListener removeManagedEventListener fst eventListeners
       with_eventListeners].
  rewrite get_set_eq.
  destruct (get target (eventListeners s)) as [ls |] eqn:E.
  - destruct (Hno ls eq_refl) as [Hne Hfresh].
    rewrite (splice_last ev h o ls Hfresh).
    destruct ls as [| l ls']; [congruence |].
    cbn [with_eventListeners eventListeners cleanupHandlers isShuttingDown
         intervals timeouts websockets].
    rewrite set_set, (set_same _ _ _ E). now destruct s.
  - cbn [app splice_first]. rewrite String.eqb_refl, Nat.eqb_refl. cbn [andb].
    cbn [with_eventListeners eventListeners cleanupHandlers isShuttingDown
         intervals timeouts websockets].
    rewrite (get_None_set _ _ _ E), remove_app, (get_None_remove _ _ E).
    unfold remove at 1. cbn. rewrite Nat.eqb_refl. cbn. rewrite app_nil_r.
    now destruct s.
Qed.

Lemma remove_undoes_add_witness :
  let page := {| next_timer := 1; next_controller := 1;
                 readyState := fun _ => OPEN; aborted := fun _ => false;
                 close_listeners := [] |} in
  let w := fst (addManagedEventListener 2 "click" 8 0 (new, page)) in
  fst (fst (removeManagedEventListener 2 "keyup" 9
              (fst (addManagedEventListener 2 "keyup" 9 1 w)))) = fst w.
Proof.
  intros page w.
  refine (proj1 (proj2 (remove_undoes_add (fst w) (snd w) 2 "keyup" 9 1 _))).
  intros ls [= <-]. split; [discriminate |].
  intros l [<- | []] He. discriminate He.
Defined.

(** [onCleanup] keeps a set: registering a function that is registered
    already changes nothing, and so does registering what is no function. *)
Theorem onCleanup_is_idempotent (v : Value) (w : World) :
  onCleanup v (fst (onCleanup v w)) = (fst (onCleanup v w), [])
  /\ onCleanup VOther w = (w, [])
  /\ forall f, In f (cleanupHandlers (fst w)) -> onCleanup (VFunction f) w = (w, []).
Proof.
  destruct w as [s b].
  assert (Hin : forall s0 f, In f (cleanupHandlers s0) ->
                             onCleanup (VFunction f) (s0, b) = ((s0, b), [])).
  { intros s0 f Hf. cbn. unfold add.
    rewrite (proj2 (has_In Fn_eqb Fn_eqb_eq f _) Hf). now destruct s0. }
  split; [| split; [reflexivity | apply Hin]].
  destruct v as [f |]; [| reflexivity].
  cbn [onCleanup fst]. apply Hin.
  cbn. apply (In_add Fn_eqb Fn_eqb_eq); now left.
Qed.

Lemma onCleanup_is_idempotent_witness :
  let page := {| next_timer := 1; next_controller := 1;
                 readyState := fun _ => OPEN; aborted := fun _ => false;
                 close_listeners := [] |} in
  let w := fst (onCleanup (VFunction (UserFn 1 false)) (new, page)) in
  onCleanup (VFunction (UserFn 1 false)) w = (w, []).
Proof.
  intros page w.
  apply (proj2 (proj2 (onCleanup_is_idempotent VOther w))). now left.
Defined.

(** ** What the first [cleanup] releases *)

(** Registering does not look at the latch. *)
Lemma perform_ignores_latch (op : Op) (s : SDK) (b : Page) :
  registers op = true ->
  perform op (with_isShuttingDown true s, b)
  = ((with_isShuttingDown true (fst (fst (perform op (s, b)))),
      snd (fst (perform op (s, b)))),
     snd (perform op (s, b))).
Proof.
  destruct op; cbn; try discriminate; intros _; try reflexivity.
  destruct v; reflexivity.
Qed.

Lemma register_step (op : Op) (s : SDK) (b : Page) :
  registers op = true ->
  let r := perform op (s, b) in
  let s' := fst (fst r) in
  (forall e, tracked s e -> tracked s' e)
  /\ (forall o, listed s o -> listed s' o)
  /\ Forall (tracked s') (snd r)
  /\ listed s' op
  /\ isShuttingDown s' = isShuttingDown s.
Proof.
  intros Hop.
  assert (Hor : registers op || is_cleanup op = true) by now rewrite Hop.
  destruct (latched_step op (with_isShuttingDown true s) b eq_refl Hor)
    as (H1 & H2 & _ & H4 & H5).
  cbv zeta in *. rewrite (perform_ignores_latch op s b Hop) in *. cbn [fst snd] in *.
  split; [exact H1 |]. split; [exact H2 |]. split; [exact H4 |]. split; [exact H5 |].
  apply (perform_latch op (s, b)). destruct op; try discriminate; reflexivity.
Qed.

Lemma register_run (ops : list Op) (s : SDK) (b : Page) :
  Forall (fun op => registers op = true) ops ->
  let r := run ops (s, b) in
  let s' := fst (fst r) in
  (forall e, tracked s e -> tracked s' e)
  /\ (forall o, listed s o -> listed s' o)
  /\ Forall (tracked s') (snd r)
  /\ Forall (listed s') ops
  /\ isShuttingDown s' = isShuttingDown s.
Proof.
  intros Hops; revert s b; induction Hops as [| op ops Hop Hops IH]; intros s b.
  - cbn. repeat split; auto.
  - destruct (register_step op s b Hop) as (H1 & H2 & H3 & H4 & H5).
    cbv zeta in *. rewrite run_cons; cbn [fst snd].
    destruct (perform op (s, b)) as [[s1 b1] t1]; cbn [fst snd] in *.
    destruct (IH s1 b1) as (I1 & I2 & I3 & I4 & I5).
    split; [auto |]. split; [auto |]. split; [| split; [| congruence]].
    + apply Forall_app; split; [| exact I3].
      eapply Forall_impl; [| exact H3]. exact I1.
    + constructor; [now apply I2 | exact I4].
Qed.

Lemma get_In {V : Type} (k : Target) (v : V) (m : list (Target * V)) :
  get k m = Some v -> In (k, v) m.
Proof.
  induction m as [| [k' v'] m IH]; cbn; [discriminate |].
  destruct (Nat.eqb_spec k k') as [-> | Hne].
  - intros [= ->]. now left.
  - intros H. right. now apply IH.
Qed.

Lemma held_released (ivs tms : list TimerId) (m : list (Target * list Binding))
    (before rest : list Effect) (e : Effect) :
  held ivs tms m e ->
  released (before ++ map ClearInterval ivs ++ map ClearTimeout tms
              ++ remove_all_listeners m ++ rest) e.
Proof.
  destruct e; cbn; try exact (fun _ => I).
  - intros H. apply in_or_app; right. apply in_or_app; left. now apply in_map.
  - intros H. apply in_or_app; right. apply in_or_app; right.
    apply in_or_app; left. now apply in_map.
  - intros [ls [Hget Hin]]. apply in_or_app; right. apply in_or_app; right.
    apply in_or_app; right. apply in_or_app; left.
    unfold remove_all_listeners. apply in_flat_map.
    exists (target, ls). split; [now apply get_In |].
    cbn. apply in_map_iff.
    exists {| event := ev; handler := h; options := o |}. now split.
Qed.

Lemma abort_closure_called (warning : string) (c : Controller) (fs : list Fn) (b : Page) :
  In (AbortFn c) fs -> In (Abort c) (snd (call_handlers warning fs b)).
Proof.
  revert b; induction fs as [| f fs IH]; intros b; [contradiction |].
  intros Hin. cbn [call_handlers].
  destruct (call_handler warning f b) as [b1 t1] eqn:E1.
  specialize (IH b1). destruct (call_handlers warning fs b1) as [b2 t2].
  cbn [snd] in *. apply in_or_app. destruct Hin as [-> | Hin].
  - left. cbn in E1. injection E1 as <- <-. right; now left.
  - right. now apply IH.
Qed.

(** In a manager on which resources were registered and nothing else was
    done, the first [cleanup] releases all of them: it clears every timer
    started, removes every listener with the options it was added with,
    aborts every fetch issued, whether it has settled or not, and closes
    every socket registered that is open or connecting. *)
Theorem first_cleanup_releases_registered (ops : list Op) (page : Page) :
  Forall (fun op => registers op = true) ops ->
  let r := run ops (new, page) in
  let t := snd (cleanup (fst r)) in
  Forall (released t) (snd r)
  /\ (forall url c, In (Fetch url c) (snd r) -> In (Abort c) t)
  /\ (forall ws, In (AddManagedWebSocket ws) ops ->
                 closable (snd (fst r)) ws = true ->
                 In (SocketClose ws 1000 "Plugin shutting down") t).
Proof.
  intros Hops. cbv zeta.
  destruct (register_run ops new page Hops) as (_ & _ & Htr & Hreg & Hl).
  assert (Hnc : Forall (fun op => is_cleanup op = false) ops).
  { eapply Forall_impl; [| exact Hops]. intros op H. destruct op; try discriminate; reflexivity. }
  pose proof (socket_closes_of_cleanup ops page Hnc) as Hsock.
  cbv zeta in *.
  destruct (run ops (new, page)) as [[s b] t0]; cbn [fst snd] in *.
  pose proof (cleanup_trace s b Hl) as Ht.
  split; [| split].
  - apply Forall_forall. intros e He.
    rewrite Forall_forall in Htr. specialize (Htr e He).
    rewrite Ht. apply held_released.
    destruct e; try exact I; exact Htr.
  - intros url c Hf. rewrite Forall_forall in Htr. specialize (Htr _ Hf). cbn in Htr.
    rewrite Ht. do 5 (apply in_or_app; right). apply in_or_app; left.
    now apply abort_closure_called.
  - intros ws Hws Hopen. rewrite Forall_forall in Hreg. specialize (Hreg _ Hws). cbn in Hreg.
    assert (Hin : In (ws, 1000, "Plugin shutting down")
                     (collect closed_socket (snd (cleanup (s, b))))).
    { rewrite Hsock. apply in_map_iff. exists ws. split; [reflexivity |].
      apply filter_In. now split. }
    apply In_collect in Hin as [e [He Hp]].
    destruct e; try discriminate. cbn in Hp. now injection Hp as -> -> ->.
Qed.

Lemma first_cleanup_releases_registered_witness :
  let page := {| next_timer := 1; next_controller := 1;
                 readyState := fun _ => OPEN; aborted := fun _ => false;
                 close_listeners := [] |} in
  let r := run [SetManagedInterval 7 1000; AddManagedEventListener 2 "click" 8 0;
                ManagedFetch "/user"; AddManagedWebSocket 4] (new, page) in
  Forall (released (snd (cleanup (fst r)))) (snd r)
  /\ In (Abort 1) (snd (cleanup (fst r)))
  /\ In (SocketClose 4 1000 "Plugin shutting down") (snd (cleanup (fst r))).
Proof.
  intros page r.
  destruct (first_cleanup_releases_registered
              [SetManagedInterval 7 1000; AddManagedEventListener 2 "click" 8 0;
               ManagedFetch "/user"; AddManagedWebSocket 4] page
              ltac:(repeat constructor)) as (H1 & H2 & H3).
  split; [exact H1 |]. split.
  - apply (H2 "/user" 1). right; right; now left.
  - apply (H3 4); [do 3 right; now left | reflexivity].
Defined.

End DelvePluginSDKMore.

Module ResourceManagerMore.
Import Browser BrowserFacts Observations ObservationFacts ResourceManager ResourceManagerFacts.
Local Open Scope string_scope.

Lemma manager_cleanup_trace (s : Manager) (b : Page) :
  isShuttingDown s = false ->
  snd (cleanup (s, b))
  = ([ConsoleLog "[GitHub Dashboard] Starting cleanup"]
       ++ map ClearInterval (intervals s)
       ++ map ClearTimeout (timeouts s)
       ++ remove_all_listeners (eventListeners s)
       ++ snd (abort_all (abortControllers s) b)
       ++ snd (call_handlers "[GitHub Dashboard] Error in cleanup handler:"
                 (cleanupHandlers s) (fst (abort_all (abortControllers s) b)))
       ++ [ConsoleLog "[GitHub Dashboard] Cleanup completed"])%list.
Proof.
  intros H. unfold cleanup. rewrite H. cbn [cleanupHandlers isShuttingDown intervals
    timeouts eventListeners abortControllers with_isShuttingDown with_intervals
    with_timeouts with_eventListeners with_abortControllers with_cleanupHandlers].
  destruct (abort_all (abortControllers s) b) as [b1 ta]; cbn [fst snd].
  destruct (call_handlers _ (cleanupHandlers s) b1) as [b2 th]; reflexivity.
Qed.

Lemma manager_step_holds (op : Op) (s : Manager) (b : Page) :
  is_cleanup op = false ->
  let r := perform op (s, b) in
  (forall e, held_by s e -> held_by (fst (fst r)) e)
  /\ Forall (held_by (fst (fst r))) (snd r).
Proof.
  intros Hop. destruct op; cbn in Hop; try discriminate; cbn -[held_by].
  - destruct v; cbn -[held_by]; split; auto.
  - split.
    + intros [] H; cbn in *; try assumption.
      apply (In_add Nat.eqb DelvePluginSDKFacts.Nat_eqb_eq); now right.
    + repeat constructor. cbn.
      apply (In_add Nat.eqb DelvePluginSDKFacts.Nat_eqb_eq); now left.
  - split.
    + intros [] H; cbn in *; try assumption.
      apply (In_add Nat.eqb DelvePluginSDKFacts.Nat_eqb_eq); now right.
    + repeat constructor. cbn.
      apply (In_add Nat.eqb DelvePluginSDKFacts.Nat_eqb_eq); now left.
  - split.
    + intros [] H; cbn in *; try assumption.
      destruct H as [ls [Hget Hin]].
      destruct (Nat.eq_dec target0 target) as [-> | Hne].
      * rewrite Hget, DelvePluginSDKFacts.get_set_eq. eexists; split; [reflexivity |].
        apply in_or_app; now left.
      * rewrite DelvePluginSDKFacts.get_set_ne by assumption. now exists ls.
    + repeat constructor. cbn. rewrite DelvePluginSDKFacts.get_set_eq.
      eexists; split; [reflexivity |]. apply in_or_app; right; now left.
  - split; [intros [] H; cbn in *; assumption | repeat constructor].
  - split; [intros [] H; cbn in *; assumption | constructor].
Qed.

(** The dashboard's manager has no operation that unregisters a timer or
    a listener: in a manager on which [cleanup] was not called yet, the
    first [cleanup] clears every timer ever started through it and removes
    every listener ever added through it, with the options it was added
    with. *)
Theorem manager_cleanup_releases_all_ever_registered (ops : list Op) (page : Page) :
  Forall (fun op => is_cleanup op = false) ops ->
  let r := run ops (new, page) in
  Forall (released (snd (cleanup (fst r)))) (snd r).
Proof.
  intros Hops. cbv zeta.
  destruct (manager_run_before_cleanup ops (new, page) Hops (NoDup_nil _)) as (Hl & _ & _).
  cbn in Hl.
  assert (Hrun : forall l s b,
             Forall (fun op => is_cleanup op = false) l ->
             (forall e, held_by s e -> held_by (fst (fst (run l (s, b)))) e)
             /\ Forall (held_by (fst (fst (run l (s, b))))) (snd (run l (s, b)))).
  { intros l s b Hl0; revert s b; induction Hl0 as [| op l Hop _ IH]; intros s b.
    - cbn. split; auto.
    - destruct (manager_step_holds op s b Hop) as [H1 H2].
      cbv zeta in *. rewrite manager_run_cons; cbn [fst snd].
      destruct (perform op (s, b)) as [[s1 b1] t1]; cbn [fst snd] in *.
      destruct (IH s1 b1) as [I1 I2]. split; [auto |].
      apply Forall_app; split; [| exact I2].
      eapply Forall_impl; [| exact H2]. exact I1. }
  destruct (Hrun ops new page Hops) as [_ Hheld].
  destruct (run ops (new, page)) as [[s b] t0]; cbn [fst snd] in *.
  rewrite (manager_cleanup_trace s b Hl).
  eapply Forall_impl; [| exact Hheld].
  intros e He. now apply DelvePluginSDKMore.held_released.
Qed.

Lemma manager_cleanup_releases_all_ever_registered_witness :
  let page := {| next_timer := 1; next_controller := 1;
                 readyState := fun _ => OPEN; aborted := fun _ => false;
                 close_listeners := [] |} in
  let r := run [SetManagedInterval 7 3000; SetManagedInterval 7 600;
                AddManagedEventListener 2 "beforeunload" 8 0] (new, page) in
  Forall (released (snd (cleanup (fst r)))) (snd r).
Proof.
  intros page r.
  exact (manager_cleanup_releases_all_ever_registered
           [SetManagedInterval 7 3000; SetManagedInterval 7 600;
            AddManagedEventListener 2 "beforeunload" 8 0] page
           ltac:(repeat constructor)).
Defined.

(** ** Pending requests *)

Lemma aborted_controllers (cs : list Controller) (b b' : Page) :
  NoDup cs ->
  (forall c, In c cs -> aborted b' c = aborted b c) ->
  collect aborted_controller (snd (abort_all cs b'))
  = filter (fun c => negb (aborted b c)) cs.
Proof.
  intros Hnd; revert b'; induction Hnd as [| c cs Hnot Hnd IH]; intros b' Hb;
    [reflexivity |].
  cbn [abort_all filter]. rewrite <- (Hb c (or_introl eq_refl)).
  destruct (aborted b' c) eqn:E; cbn [negb].
  - apply IH. intros x Hx. apply Hb; now right.
  - assert (Hrest : forall x, In x cs -> aborted (set_aborted c b') x = aborted b x).
    { intros x Hx. cbn. destruct (Nat.eqb_spec x c) as [-> | Hne]; [contradiction |].
      apply Hb; now right. }
    specialize (IH _ Hrest).
    destruct (abort_all cs _); cbn [snd] in *. unfold collect in *; cbn. now rewrite IH.
Qed.

Lemma user_handlers_abort_nothing (warning : string) (fs : list Fn) (b : Page) :
  (forall c, ~ In (AbortFn c) fs) ->
  collect aborted_controller (snd (call_handlers warning fs b)) = [].
Proof.
  revert b; induction fs as [| f fs IH]; intros b Hno; [reflexivity |].
  cbn [call_handlers].
  destruct (call_handler warning f b) as [b1 t1] eqn:E1.
  assert (Hno' : forall c, ~ In (AbortFn c) fs) by (intros c Hc; apply (Hno c); now right).
  specialize (IH b1 Hno'). destruct (call_handlers warning fs b1) as [b2 t2].
  cbn [snd] in *. rewrite collect_app, IH, app_nil_r.
  destruct f as [i [|] | c]; cbn in E1; [| | exfalso; apply (Hno c); now left];
    injection E1 as <- <-; reflexivity.
Qed.

Lemma plain_step (op : Op) (w : World) :
  plain op = true ->
  NoDup (abortControllers (fst w)) ->
  (forall c, ~ In (AbortFn c) (cleanupHandlers (fst w))) ->
  NoDup (abortControllers (fst (fst (perform op w))))
  /\ (forall c, ~ In (AbortFn c) (cleanupHandlers (fst (fst (perform op w))))).
Proof.
  destruct w as [s b]. intros Hop Hnd Hno.
  destruct op; cbn in Hop; try discriminate; cbn; try (split; assumption).
  - destruct v as [[i t | c] |]; try discriminate; cbn; split; try assumption.
    intros c Hc. apply (In_add Fn_eqb Fn_eqb_eq) in Hc as [Hc | Hc];
      [discriminate | now apply (Hno c)].
  - split; [| assumption].
    now apply (NoDup_add Nat.eqb DelvePluginSDKFacts.Nat_eqb_eq).
  - split; [| assumption]. unfold delete. now apply NoDup_filter.
Qed.

(** [cleanup] aborts the requests that are still pending and whose signal
    is not aborted yet, each once, and no other: a request that settled
    has left the registry when its promise ran [finally]. *)
Theorem manager_aborts_pending_requests (ops : list Op) (page : Page) (c : Controller) :
  Forall (fun op => plain op = true) ops ->
  let w := fst (run ops (new, page)) in
  collect aborted_controller (snd (cleanup w))
  = filter (fun x => negb (aborted (snd w) x)) (abortControllers (fst w))
  /\ ~ In c (abortControllers (fst (fst (settled c w)))).
Proof.
  intros Hops. cbv zeta.
  assert (Hnc : Forall (fun op => is_cleanup op = false) ops).
  { eapply Forall_impl; [| exact Hops]. intros op H. destruct op; try discriminate; reflexivity. }
  destruct (manager_run_before_cleanup ops (new, page) Hnc (NoDup_nil _)) as (Hl & _ & _).
  cbn in Hl.
  assert (Hinv : forall l w0,
             Forall (fun op => plain op = true) l ->
             NoDup (abortControllers (fst w0)) ->
             (forall x, ~ In (AbortFn x) (cleanupHandlers (fst w0))) ->
             NoDup (abortControllers (fst (fst (run l w0))))
             /\ (forall x, ~ In (AbortFn x) (cleanupHandlers (fst (fst (run l w0)))))).
  { intros l w0 Hl0; revert w0; induction Hl0 as [| op l Hop _ IH]; intros w0 Hnd Hno.
    - cbn. now split.
    - rewrite manager_run_cons; cbn [fst].
      destruct (plain_step op w0 Hop Hnd Hno) as [Hnd1 Hno1]. now apply IH. }
  destruct (Hinv ops (new, page) Hops (NoDup_nil _) (fun x H => H)) as [Hnd Hno].
  destruct (run ops (new, page)) as [[s b] t0]; cbn [fst snd] in *.
  split.
  - rewrite (manager_cleanup_trace s b Hl), !collect_app.
    rewrite (collect_map_none aborted_controller ClearInterval) by reflexivity.
    rewrite (collect_map_none aborted_controller ClearTimeout) by reflexivity.
    rewrite (collect_listeners aborted_controller) by reflexivity.
    rewrite (aborted_controllers (abortControllers s) b b Hnd) by reflexivity.
    rewrite (user_handlers_abort_nothing _ _ _ Hno).
    cbn. now rewrite !app_nil_r.
  - cbn. apply DelvePluginSDKMore.not_In_delete.
Qed.

Lemma manager_aborts_pending_requests_witness :
  let page := {| next_timer := 1; next_controller := 1;
                 readyState := fun _ => OPEN; aborted := fun _ => false;
                 close_listeners := [] |} in
  let w := fst (run [ManagedFetch "/user"; ManagedFetch "/repos/a/b"; Settled 1]
                  (new, page)) in
  collect aborted_controller (snd (cleanup w)) = [2].
Proof.
  intros page w.
  exact (proj1 (manager_aborts_pending_requests
                  [ManagedFetch "/user"; ManagedFetch "/repos/a/b"; Settled 1] page 0
                  ltac:(repeat constructor))).
Defined.

End ResourceManagerMore.

(* ===================================================================== *)
(** * Properties of the GitHub dashboard plugin                           *)
(* ===================================================================== *)

Module DashboardFacts.
Import Json PluginServer Dashboard.
Local Open Scope string_scope.

Lemma take_app (prefix rest : string) : take (String.length prefix) (prefix ++ rest) = prefix.
Proof. induction prefix as [| c prefix IH]; cbn; [now destruct rest | now rewrite IH]. Qed.

Lemma length_append (a b : string) :
  String.length (a ++ b) = String.length a + String.length b.
Proof. induction a as [| c a IH]; cbn; [reflexivity | now rewrite IH]. Qed.

Lemma HasSuffix_app (x suffix : string) : HasSuffix (x ++ suffix) suffix = true.
Proof.
  unfold HasSuffix. rewrite length_append.
  replace (String.length x + String.length suffix - String.length suffix)
    with (String.length x) by lia.
  rewrite RunPluginFacts.drop_app, String.eqb_refl, andb_true_r.
  apply Nat.leb_le. lia.
Qed.

Lemma TrimSuffix_app (x suffix : string) : TrimSuffix (x ++ suffix) suffix = x.
Proof.
  unfold TrimSuffix. rewrite HasSuffix_app, length_append.
  replace (String.length x + String.length suffix - String.length suffix)
    with (String.length x) by lia.
  apply take_app.
Qed.

Lemma TrimPrefix_app (prefix x : string) : TrimPrefix (prefix ++ x) prefix = x.
Proof.
  unfold TrimPrefix, HasPrefix. rewrite RunPluginFacts.HasPrefix_app.
  apply RunPluginFacts.drop_app.
Qed.

Section Plugin.

Context (codec : Codec) (out : Outside).

(** The route of the pull requests gives back the repository it was
    built from: [GET /repositories/<repo>/pulls] asks for the pull
    requests of exactly [<repo>], slashes in it included.  A method other
    than GET and POST reaches no endpoint and is answered with the method
    and the path it came with. *)
Theorem pull_request_route_round_trip (repo method path body : string) (p : Plugin) :
  HandleRequest codec out "GET" ("/repositories/" ++ repo ++ "/pulls") body p
  = (getPullRequests out repo p, p)
  /\ (method <> "GET" -> method <> "POST" ->
      HandleRequest codec out method path body p
      = ((EmptyString, Some ("endpoint not found: " ++ method ++ " " ++ path)), p)).
Proof.
  split.
  - unfold HandleRequest.
    assert (H1 : String.eqb ("/repositories/" ++ repo ++ "/pulls") "/repositories" = false).
    { apply String.eqb_neq. intros H.
      apply (f_equal String.length) in H. rewrite length_append in H. cbn in H. lia. }
    rewrite H1. cbn [String.eqb Ascii.eqb Bool.eqb andb].
    unfold HasPrefix at 1. rewrite RunPluginFacts.HasPrefix_app.
    change ("/repositories/" ++ repo ++ "/pulls")
      with (("/repositories/" ++ repo) ++ "/pulls") at 1.
    assert (Hassoc : "/repositories/" ++ repo ++ "/pulls"
                     = ("/repositories/" ++ repo) ++ "/pulls") by reflexivity.
    rewrite Hassoc at 1. rewrite HasSuffix_app. cbn [andb].
    rewrite <- Hassoc, (TrimPrefix_app "/repositories/" (repo ++ "/pulls")).
    now rewrite TrimSuffix_app.
  - intros Hg Hp. unfold HandleRequest.
    apply String.eqb_neq in Hg, Hp. now rewrite Hg, Hp.
Qed.

Lemma Initialize_interval_positive (cfg : gomap) (p : Plugin) :
  fst (Initialize codec out cfg p) = None ->
  (0 < RefreshInterval (config (snd (Initialize codec out cfg p))))%Z.
Proof.
  unfold Initialize.
  destruct (UnmarshalConfig out (Marshal codec (JObj cfg)) (config p)) as [c [text |]];
    cbn [fst snd]; [discriminate |].
  destruct (String.eqb (GitHubToken c) EmptyString); cbn [fst snd]; [discriminate |].
  intros _. destruct (Z.leb_spec (RefreshInterval c) 0); cbn; lia.
Qed.

(** A successful [Initialize] leaves a plugin with a token, a positive
    refresh interval (300 when the configuration gave none) and an HTTP
    client.  A failed one leaves the client as it was, yet has stored what
    the decoder wrote into the configuration before the error. *)
Theorem Initialize_establishes_configuration (cfg : gomap) (p : Plugin) :
  let r := Initialize codec out cfg p in
  let decoded := fst (UnmarshalConfig out (Marshal codec (JObj cfg)) (config p)) in
  (fst r = None ->
   GitHubToken (config (snd r)) <> EmptyString
   /\ GitHubToken (config (snd r)) = GitHubToken decoded
   /\ Repositories (config (snd r)) = Repositories decoded
   /\ (0 < RefreshInterval (config (snd r)))%Z
   /\ ((0 < RefreshInterval decoded)%Z ->
       RefreshInterval (config (snd r)) = RefreshInterval decoded)
   /\ ((RefreshInterval decoded <= 0)%Z -> RefreshInterval (config (snd r)) = 300%Z)
   /\ client (snd r) = true)
  /\ (fst r <> None -> snd r = {| config := decoded; client := client p |}).
Proof.
  cbn zeta. unfold Initialize.
  destruct (UnmarshalConfig out (Marshal codec (JObj cfg)) (config p)) as [c [text |]];
    cbn [fst snd].
  - split; [discriminate | reflexivity].
  - destruct (String.eqb_spec (GitHubToken c) EmptyString) as [He | Hne]; cbn [fst snd].
    + split; [discriminate | reflexivity].
    + split; [| congruence]. intros _.
      destruct (Z.leb_spec (RefreshInterval c) 0); cbn; repeat split; auto; lia.
Qed.

(** The goroutine that [Start] launches panics when the refresh interval
    is not positive, as it is in a plugin that was never initialized; it
    does not after a successful [Initialize], as long as the interval in
    nanoseconds fits 64 bits. *)
Theorem Start_needs_a_positive_interval (cfg : gomap) (p : Plugin) :
  backgroundRefresh_panics NewPlugin = true
  /\ ((RefreshInterval (config p) <= 0)%Z ->
      (-9223372036 <= RefreshInterval (config p))%Z ->
      backgroundRefresh_panics p = true)
  /\ (fst (Initialize codec out cfg p) = None ->
      (RefreshInterval (config (snd (Initialize codec out cfg p))) <= 9223372036)%Z ->
      backgroundRefresh_panics (snd (Initialize codec out cfg p)) = false).
Proof.
  split; [reflexivity |]. split.
  - intros Hle Hlo. unfold backgroundRefresh_panics, ticker_interval, wrap64.
    apply Z.leb_le.
    rewrite Z.mod_small by lia. lia.
  - intros Hok Hhi.
    pose proof (Initialize_interval_positive cfg p Hok) as Hpos.
    unfold backgroundRefresh_panics, ticker_interval, wrap64.
    apply Z.leb_gt. rewrite Z.mod_small by lia. lia.
Qed.

Section Served.

Context (wire_codec : Codec).

(** Served over the plugin server, the dashboard has no endpoint behind
    execute_action: whatever the request holds and whatever state the
    plugin is in, the answer is [success:false] with
    [endpoint not found: POST /execute], and the plugin is left as it was. *)
Theorem execute_action_has_no_endpoint (req : Request) (s : Server Plugin) :
  Method req = "execute_action" ->
  handleRequest (api codec out) wire_codec req s
  = (failure "endpoint not found: POST /execute", s,
     [CallHandleRequest "POST" "/execute" (Marshal wire_codec (value_at "data" (Data req)))]).
Proof.
  intros H. unfold handleRequest. rewrite H. cbn [String.eqb Ascii.eqb Bool.eqb].
  unfold handleExecuteAction, bind, invoke, ret. cbn. now destruct s.
Qed.


(** get_info reports the status [running] in every state of the plugin,
    one that was never initialized or started included, with the number
    of configured repositories; it changes nothing. *)
Theorem get_info_always_reports_running (req : Request) (s : Server Plugin) :
  Method req = "get_info" ->
  handleRequest (api codec out) wire_codec req s
  = (success [("name", JStr "GitHub Dashboard");
              ("repositories",
               JNum (decimal (N.of_nat (length (Repositories (config (plugin s)))))));
              ("status", JStr "running");
              ("version", JStr "1.0.0")],
     s, [CallGetInfo]).
Proof.
  intros H. unfold handleRequest. rewrite H. cbn [String.eqb Ascii.eqb Bool.eqb].
  unfold handleGetInfo, bind, invoke, ret. cbn. now destruct s.
Qed.

End Served.

End Plugin.

Lemma pull_request_route_round_trip_witness :
  HandleRequest go offline "DELETE" "/repositories" EmptyString NewPlugin
  = ((EmptyString, Some "endpoint not found: DELETE /repositories"), NewPlugin).
Proof.
  apply (proj2 (pull_request_route_round_trip go offline EmptyString "DELETE"
                  "/repositories" EmptyString NewPlugin)); discriminate.
Defined.

Lemma Initialize_establishes_configuration_witness :
  let r := Initialize go offline [("github_token", JStr "ghp_1")] NewPlugin in
  GitHubToken (config (snd r)) <> EmptyString
  /\ RefreshInterval (config (snd r)) = 300%Z
  /\ client (snd r) = true.
Proof.
  intros r.
  destruct (proj1 (Initialize_establishes_configuration go offline
                     [("github_token", JStr "ghp_1")] NewPlugin) eq_refl)
    as (H1 & _ & _ & _ & _ & H6 & H7).
  split; [exact H1 |]. split; [| exact H7].
  apply H6. vm_compute. discriminate.
Defined.

Lemma Start_needs_a_positive_interval_witness :
  backgroundRefresh_panics
    (snd (Initialize go offline [("github_token", JStr "ghp_1")] NewPlugin)) = false.
Proof.
  apply (proj2 (proj2 (Start_needs_a_positive_interval go offline
                         [("github_token", JStr "ghp_1")] NewPlugin))).
  - reflexivity.
  - vm_compute. discriminate.
Defined.

Lemma execute_action_has_no_endpoint_witness :
  handleRequest (api go offline) go
    {| Method := "execute_action"; Action := EmptyString;
       Data := [("data", JObj [("action", JStr "refresh")])] |}
    (NewPluginServer NewPlugin)
  = (failure "endpoint not found: POST /execute", NewPluginServer NewPlugin,
     [CallHandleRequest "POST" "/execute" (wire "{'action':'refresh'}")]).
Proof.
  exact (execute_action_has_no_endpoint go offline go
           {| Method := "execute_action"; Action := EmptyString;
              Data := [("data", JObj [("action", JStr "refresh")])] |}
           (NewPluginServer NewPlugin) eq_refl).
Defined.


Lemma get_info_always_reports_running_witness :
  value (handleRequest (api go offline) go
           {| Method := "get_info"; Action := EmptyString; Data := [] |}
           (NewPluginServer NewPlugin))
  = success [("name", JStr "GitHub Dashboard"); ("repositories", JNum "0");
             ("status", JStr "running"); ("version", JStr "1.0.0")].
Proof.
  exact (f_equal value
           (get_info_always_reports_running go offline go
              {| Method := "get_info"; Action := EmptyString; Data := [] |}
              (NewPluginServer NewPlugin) eq_refl)).
Defined.

End DashboardFacts.

(* ===================================================================== *)
(** * Properties of the JSON linter's frontend                            *)
(* ===================================================================== *)

Module LinterFacts.
Import Json Linter.

Lemma split_length_take (input : string) (position : nat) :
  1 <= split_length (Dashboard.take position input) <= split_length input.
Proof.
  revert position; induction input as [| c r IH]; intros position.
  - destruct position; cbn; lia.
  - destruct position as [| n]; cbn.
    + destruct (ch_is 10 c); specialize (IH 0); lia.
    + specialize (IH n). destruct (ch_is 10 c); lia.
Qed.

Lemma take_all (input : string) (position : nat) :
  String.length input <= position -> Dashboard.take position input = input.
Proof.
  revert position; induction input as [| c r IH]; intros position H.
  - now destruct position.
  - destruct position as [| n]; cbn in *; [lia |]. f_equal. apply IH. lia.
Qed.

(** The line computed from the position of a parse error lies between 1
    and the number of lines that the status bar shows for the input; it
    does not decrease when the position grows, and a position at or past
    the end of the input gives the last line. *)
Theorem error_line_is_within_the_input (input : string) (position later : nat) :
  input <> EmptyString ->
  1 <= lineOfPosition input position <= lineCount input
  /\ (position <= later -> lineOfPosition input position <= lineOfPosition input later)
  /\ (String.length input <= position -> lineOfPosition input position = lineCount input).
Proof.
  intros Hne. unfold lineOfPosition, lineCount.
  destruct input as [| c r]; [congruence |].
  split; [apply split_length_take |]. split.
  - generalize (String c r). clear. intros input; revert position later.
    induction input as [| c r IH]; intros position later Hle.
    + destruct position, later; cbn; lia.
    + destruct position as [| n], later as [| m]; cbn; try lia.
      * pose proof (split_length_take r m). destruct (ch_is 10 c); lia.
      * specialize (IH n m). destruct (ch_is 10 c); lia.
  - intros H. now rewrite take_all.
Qed.

Lemma error_line_is_within_the_input_witness :
  1 <= lineOfPosition (wire "{'a':" ++ PluginServer.newline ++ "tru}") 8
    <= lineCount (wire "{'a':" ++ PluginServer.newline ++ "tru}").
Proof.
  apply (error_line_is_within_the_input
           (wire "{'a':" ++ PluginServer.newline ++ "tru}") 8 8).
  discriminate.
Defined.

End LinterFacts.
